(** * amrt: segmentation of log lines into multi-line paragraphs

    A shallow embedding of [src/amrt/__init__.py]: the [Expression] class,
    [split_text] and [report], with the properties of the specification
    stated and proved (or refuted) over it.

    Conventions.
    - A Python [str] is a Rocq [string] holding its UTF-8 encoding, so
      [s.encode("utf-8")] is the identity; the line terminator is the
      single byte 10, which never occurs inside a multi-byte sequence.
    - A raised exception is a value of [exn]; code that may raise lives in
      the monad [exc].
    - [collections.defaultdict(int)] is a [gmap string nat] read with the
      total lookup [!!!] (default [0]); [!!] tells whether a key is held.
    - Python's [re] module is the interface [Regex]; [hashlib.md5] is
      [MD5.hexdigest], written out after RFC 1321.
    - A text file is the list of its lines as iteration yields them, each
      with its terminator (the last one possibly without).
    - Reading the YAML configuration, the command line, the table and the
      pager are input and display only, and are left out. *)

From Stdlib Require Import Ascii String ZArith QArith.
From stdpp Require Import base option list strings gmap fin_maps sorting.

Local Open Scope string_scope.
Local Open Scope list_scope.

(** ** Strings *)

(** The line terminator ["\n"]. *)
Definition LF : ascii := "010"%char.
Definition NL : string := String LF EmptyString.

(** [s.lstrip(c)], [s.rstrip(c)] and [s.strip(c)] for a one-character
    set [c]. *)
Fixpoint lstrip (c : ascii) (s : string) : string :=
  match s with
  | String a s' => if Ascii.eqb a c then lstrip c s' else s
  | EmptyString => EmptyString
  end.

Fixpoint rstrip (c : ascii) (s : string) : string :=
  match s with
  | EmptyString => EmptyString
  | String a s' =>
      match rstrip c s' with
      | EmptyString => if Ascii.eqb a c then EmptyString else String a EmptyString
      | r => String a r
      end
  end.

Definition strip (c : ascii) (s : string) : string := rstrip c (lstrip c s).

(** [sep.join(l)]. *)
Definition join (sep : string) (l : list string) : string := String.concat sep l.

(** ** MD5 (RFC 1321), the function behind [hashlib.md5(b).hexdigest()] *)

Module MD5.
Local Open Scope Z_scope.

Definition w32 (x : Z) : Z := x mod 2 ^ 32.

Definition rotl (x c : Z) : Z :=
  w32 (Z.lor (Z.shiftl x c) (Z.shiftr x (32 - c))).

(** Per-round shift amounts. *)
Definition S : list Z :=
  [7; 12; 17; 22; 7; 12; 17; 22; 7; 12; 17; 22; 7; 12; 17; 22;
   5;  9; 14; 20; 5;  9; 14; 20; 5;  9; 14; 20; 5;  9; 14; 20;
   4; 11; 16; 23; 4; 11; 16; 23; 4; 11; 16; 23; 4; 11; 16; 23;
   6; 10; 15; 21; 6; 10; 15; 21; 6; 10; 15; 21; 6; 10; 15; 21].

(** [K !! i] is the integer part of [2^32 * |sin (i + 1)|]. *)
Definition K : list Z :=
  [0xd76aa478; 0xe8c7b756; 0x242070db; 0xc1bdceee;
   0xf57c0faf; 0x4787c62a; 0xa8304613; 0xfd469501;
   0x698098d8; 0x8b44f7af; 0xffff5bb1; 0x895cd7be;
   0x6b901122; 0xfd987193; 0xa679438e; 0x49b40821;
   0xf61e2562; 0xc040b340; 0x265e5a51; 0xe9b6c7aa;
   0xd62f105d; 0x02441453; 0xd8a1e681; 0xe7d3fbc8;
   0x21e1cde6; 0xc33707d6; 0xf4d50d87; 0x455a14ed;
   0xa9e3e905; 0xfcefa3f8; 0x676f02d9; 0x8d2a4c8a;
   0xfffa3942; 0x8771f681; 0x6d9d6122; 0xfde5380c;
   0xa4beea44; 0x4bdecfa9; 0xf6bb4b60; 0xbebfbc70;
   0x289b7ec6; 0xeaa127fa; 0xd4ef3085; 0x04881d05;
   0xd9d4d039; 0xe6db99e5; 0x1fa27cf8; 0xc4ac5665;
   0xf4292244; 0x432aff97; 0xab9423a7; 0xfc93a039;
   0x655b59c3; 0x8f0ccc92; 0xffeff47d; 0x85845dd1;
   0x6fa87e4f; 0xfe2ce6e0; 0xa3014314; 0x4e0811a1;
   0xf7537e82; 0xbd3af235; 0x2ad7d2bb; 0xeb86d391].

Definition bytes_of (s : string) : list Z :=
  (λ a, Z.of_N (Ascii.N_of_ascii a)) <$> list_ascii_of_string s.

(** [n] bytes of [x], least significant first. *)
Fixpoint le_bytes (n : nat) (x : Z) : list Z :=
  match n with
  | O => []
  | Datatypes.S n' => x mod 256 :: le_bytes n' (x / 256)
  end.

(** The message, a [1] bit, zeros up to 56 modulo 64, then the bit
    length on 64 bits. *)
Definition pad (msg : list Z) : list Z :=
  let len := Z.of_nat (length msg) in
  let zeros := Z.to_nat ((55 - len) mod 64) in
  msg ++ 0x80 :: replicate zeros 0 ++ le_bytes 8 ((8 * len) mod 2 ^ 64).

Fixpoint le_words (n : nat) (bs : list Z) : list Z :=
  match n with
  | O => []
  | Datatypes.S n' =>
      match bs with
      | b0 :: b1 :: b2 :: b3 :: rest =>
          (b0 + 256 * (b1 + 256 * (b2 + 256 * b3))) :: le_words n' rest
      | _ => []
      end
  end.

Definition round (M : list Z) (i : nat) (st : Z * Z * Z * Z) : Z * Z * Z * Z :=
  let '(a, b, c, d) := st in
  let '(f, g) :=
    if (i <? 16)%nat then
      (Z.lor (Z.land b c) (Z.land (w32 (Z.lnot b)) d), i)
    else if (i <? 32)%nat then
      (Z.lor (Z.land d b) (Z.land (w32 (Z.lnot d)) c), ((5 * i + 1) mod 16)%nat)
    else if (i <? 48)%nat then
      (Z.lxor (Z.lxor b c) d, ((3 * i + 5) mod 16)%nat)
    else
      (Z.lxor c (Z.lor b (w32 (Z.lnot d))), ((7 * i) mod 16)%nat) in
  let f' := w32 (f + a + K !!! i + M !!! g) in
  (d, w32 (b + rotl f' (S !!! i)), b, c).

Definition block (st : Z * Z * Z * Z) (M : list Z) : Z * Z * Z * Z :=
  let '(a0, b0, c0, d0) := st in
  let '(a, b, c, d) := foldl (λ s i, round M i s) st (seq 0 64) in
  (w32 (a0 + a), w32 (b0 + b), w32 (c0 + c), w32 (d0 + d)).

Fixpoint blocks (n : nat) (st : Z * Z * Z * Z) (bs : list Z) : Z * Z * Z * Z :=
  match n with
  | O => st
  | Datatypes.S n' => blocks n' (block st (le_words 16 (take 64 bs))) (drop 64 bs)
  end.

Definition digest (msg : list Z) : list Z :=
  let p := pad msg in
  let '(a, b, c, d) :=
    blocks (length p / 64)
      (0x67452301, 0xefcdab89, 0x98badcfe, 0x10325476) p in
  le_bytes 4 a ++ le_bytes 4 b ++ le_bytes 4 c ++ le_bytes 4 d.

Definition hex_digit (x : Z) : ascii :=
  Ascii.ascii_of_N (Z.to_N (if x <? 10 then 48 + x else 87 + x)).

Fixpoint hex (bs : list Z) : string :=
  match bs with
  | [] => EmptyString
  | b :: bs' => String (hex_digit (b / 16)) (String (hex_digit (b mod 16)) (hex bs'))
  end.

Definition hexdigest (s : string) : string := hex (digest (bytes_of s)).
End MD5.

(** ** Exceptions *)

Inductive exn : Type :=
  | AttributeError              (* an attribute looked up on [None] *)
  | re_error (source : string)  (* [re.error], with the offending source *)
  | ZeroDivisionError.

Inductive exc (A : Type) : Type :=
  | Return (a : A)
  | Raise (e : exn).
Arguments Return {A} a.
Arguments Raise {A} e.

#[global] Instance exn_eq_dec : EqDecision exn.
Proof. solve_decision. Defined.

#[global] Instance exc_eq_dec {A : Type} `{EqDecision A} : EqDecision (exc A).
Proof. solve_decision. Defined.

#[global] Instance exc_ret : MRet exc := @Return.
#[global] Instance exc_bind : MBind exc :=
  λ A B f m, match m with Return a => f a | Raise e => Raise e end.

(** A [for] loop over [l] whose body updates the loop state and may raise. *)
Fixpoint for_each {A St : Type} (body : St → A → exc St) (l : list A) (st : St) : exc St :=
  match l with
  | [] => Return st
  | x :: l' => st' ← body st x; for_each body l' st'
  end.

(** ** The regular-expression facility

    [re.compile(src)] either raises [re.error] ([None]) or gives a compiled
    pattern; [p.match(s)], tested for truth, says whether [p] matches at
    the start of [s]. *)
Class Regex : Type := {
  Pattern : Type;
  re_compile : string → option Pattern;
  re_match : Pattern → string → bool;
}.

(** ** class Expression *)

Module Expression.
Record t : Type := mk {
  desc : string;
  expression : string;
  known : list string;
}.

#[global] Instance eq_dec : EqDecision t.
Proof. solve_decision. Defined.

Definition id (self : t) : string := MD5.hexdigest (expression self).

Section methods.
Context `{Regex}.

(** The memoised [_pattern]: compilation is a function of the source,
    so the cache is not visible; a failure is not cached. *)
Definition pattern (self : t) : exc Pattern :=
  match re_compile (expression self) with
  | Some p => Return p
  | None => Raise (re_error (expression self))
  end.

Definition compile_known (i : string) : exc Pattern :=
  match re_compile i with
  | Some p => Return p
  | None => Raise (re_error i)
  end.

Definition should_exclude (self : t) (paragraph : string) : exc bool :=
  _exclude_patterns ← mapM compile_known (known self);
  Return (existsb (λ pattern, re_match pattern paragraph) _exclude_patterns).
End methods.
End Expression.

(** ** split_text *)

Abbreviation MatchCounter := (gmap string nat).

Record state : Type := mkstate {
  result : list (string * bool);
  current_group : list string;
  current_regexp : option Expression.t;
  match_count : MatchCounter;
}.

#[global] Instance state_eq_dec : EqDecision state.
Proof. solve_decision. Defined.

Definition init : state :=
  {| result := []; current_group := []; current_regexp := None; match_count := ∅ |}.

Section segmentation.
Context `{Regex}.

(** The inner function [push]; [result] is the enclosing list, returned
    updated. *)
Definition push (expression : option Expression.t) (lines : list string)
    (result : list (string * bool)) : exc (list (string * bool)) :=
  if (List.length lines <? 2)%nat then Return result
  else
    let paragraph := join NL lines in
    match expression with
    | None => Raise AttributeError
    | Some e =>
        excluded ← Expression.should_exclude e paragraph;
        Return (result ++ [(paragraph, excluded)])
    end.

(** [for regexp in regex_data: ... break / else: ...] for one line. *)
Fixpoint scan (regex_data : list Expression.t) (line : string) (st : state) : exc state :=
  match regex_data with
  | [] =>
      Return {| result := result st;
                current_group := current_group st ++ [line];
                current_regexp := current_regexp st;
                match_count := match_count st |}
  | regexp :: regex_data' =>
      p ← Expression.pattern regexp;
      if re_match p line then
        let match_count' :=
          <[Expression.id regexp := S (match_count st !!! Expression.id regexp)]>
            (match_count st) in
        result' ← (if (1 <? List.length (current_group st))%nat
                   then push (current_regexp st) (current_group st) (result st)
                   else Return (result st));
        Return {| result := result';
                  current_group := [line];
                  current_regexp := Some regexp;
                  match_count := match_count' |}
      else scan regex_data' line st
  end.

(** The body of [for line in file]. *)
Definition body (regex_data : list Expression.t) (st : state) (raw : string) : exc state :=
  let line := strip LF raw in
  if String.eqb line "" then Return st
  else scan regex_data line st.

Definition split_text (file : list string) (regex_data : list Expression.t)
    : exc (list (string * bool) * MatchCounter) :=
  st ← for_each (body regex_data) file init;
  result' ← (if (1 <? List.length (current_group st))%nat && bool_decide (is_Some (current_regexp st))
             then push (current_regexp st) (current_group st) (result st)
             else Return (result st));
  Return (result', match_count st).
End segmentation.

(** ** report *)

(** [sorted(l, key=key, reverse=True)]: descending by [key], and stable
    (elements with equal keys keep their order, also under
    [reverse=True]). Insertion from the right: an element is put in front
    of the first element whose key is not greater than its own. *)
Section sorted.
Context {A : Type} (key : A → nat).

Fixpoint insert_desc (x : A) (l : list A) : list A :=
  match l with
  | [] => [x]
  | y :: l' => if (key x <? key y)%nat then y :: insert_desc x l' else x :: l
  end.

Definition sorted_reverse (l : list A) : list A := foldr insert_desc [] l.
End sorted.

(** [a / b] on integers: the exact quotient, of which Python takes the
    nearest float; it raises when [b] is zero. *)
Definition truediv (a b : nat) : exc Q :=
  if (b =? 0)%nat then Raise ZeroDivisionError
  else Return (Z.of_nat a # Pos.of_nat b).

(** One row of the table; [row_percent] is the exact value of
    [count / total * 100], which the code prints with two decimals. *)
Record row : Type := mkrow {
  row_expression : string;
  row_desc : string;
  row_count : nat;
  row_percent : Q;
}.

(** What [report] prints: the summary line (only when [result] is not
    empty), the rows of the table, and the combined expression. *)
Record report_data : Type := mkreport {
  summary : option (nat * nat * nat);
  table : list row;
  final_expression : string;
}.

(** [sum(counter.values())]. *)
Definition sum_values (counter : MatchCounter) : nat :=
  map_fold (λ _ v acc, v + acc) 0 counter.

(** The body of [for regexp in sorted(...)]; the loop state is the table
    and [final_expression_components]. *)
Definition report_row (counter : MatchCounter) (total : nat)
    (acc : list row * list string) (regexp : Expression.t) : exc (list row * list string) :=
  let count := counter !!! Expression.id regexp in
  q ← truediv count total;
  Return (acc.1 ++ [ {| row_expression := Expression.expression regexp;
                        row_desc := Expression.desc regexp;
                        row_count := count;
                        row_percent := (q * 100)%Q |} ],
          acc.2 ++ [Expression.expression regexp]).

Definition report (counter : MatchCounter) (expressions : list Expression.t)
    (result : option (list (string * bool))) : exc report_data :=
  let total := sum_values counter in
  let summary :=
    match result with
    | Some ((_ :: _) as r) =>
        Some (List.length r, total, sum_list ((λ i : string * bool, if i.2 then 1 else 0) <$> r))
    | _ => None
    end in
  acc ← for_each (report_row counter total)
          (sorted_reverse (λ x, counter !!! Expression.id x) expressions) ([], []);
  Return {| summary := summary;
            table := acc.1;
            final_expression := ("(" ++ join "|" acc.2 ++ ").*")%string |}.

(** ** main, without its input and display: the report, and the texts of
    the paragraphs left for review. *)
Definition main `{Regex} (file : list string) (regex_data : list Expression.t)
    : exc (report_data * list string) :=
  r ← split_text file regex_data;
  rep ← report r.2 regex_data (Some r.1);
  Return (rep, fst <$> List.filter (λ i : string * bool, negb i.2) r.1).

(** ** A small regular-expression engine

    An instance of [Regex] to run the program on concrete inputs. It covers
    a fragment of the syntax of Python's [re]: literal characters, [.],
    [^], alternation, groups, [*] and backslash-escaped special
    characters. Within the fragment it rejects what Python rejects
    (unbalanced parentheses, [*] with nothing to repeat or repeated, a
    trailing backslash). The other special characters are outside the
    fragment; [compile] gives [None] on them, and no statement below uses
    such a source. Matching is by derivatives. *)
Module RegexLite.
Inductive re : Type :=
  | Eps | Fail | Chr (a : ascii) | Any | Bol
  | Seq (r1 r2 : re) | Alt (r1 r2 : re) | Star (r : re).

#[global] Instance re_eq_dec : EqDecision re.
Proof. solve_decision. Defined.

Definition is_special (a : ascii) : bool :=
  existsb (Ascii.eqb a) (list_ascii_of_string ".^$*+?{}[]\|()").

Definition parse_star (a : re) (s : string) : option (re * string) :=
  match s with
  | String "*" s1 =>
      match a, s1 with
      | Bol, _ => None
      | _, String "*" _ => None
      | _, _ => Some (Star a, s1)
      end
  | _ => Some (a, s)
  end.

Fixpoint parse_alt (fuel : nat) (s : string) : option (re * string) :=
  match fuel with
  | O => None
  | S fuel' =>
      r1 ← parse_seq fuel' s;
      match r1.2 with
      | String "|" s2 => r2 ← parse_alt fuel' s2; Some (Alt r1.1 r2.1, r2.2)
      | _ => Some r1
      end
  end
with parse_seq (fuel : nat) (s : string) : option (re * string) :=
  match fuel with
  | O => None
  | S fuel' =>
      match s with
      | EmptyString | String "|" _ | String ")" _ => Some (Eps, s)
      | _ =>
          a ← parse_atom fuel' s;
          q ← parse_star a.1 a.2;
          r ← parse_seq fuel' q.2;
          Some (Seq q.1 r.1, r.2)
      end
  end
with parse_atom (fuel : nat) (s : string) : option (re * string) :=
  match fuel with
  | O => None
  | S fuel' =>
      match s with
      | EmptyString => None
      | String "(" s1 =>
          r ← parse_alt fuel' s1;
          match r.2 with
          | String ")" s2 => Some (r.1, s2)
          | _ => None
          end
      | String "." s1 => Some (Any, s1)
      | String "^" s1 => Some (Bol, s1)
      | String "\" s1 =>
          match s1 with
          | String c s2 => if is_special c then Some (Chr c, s2) else None
          | EmptyString => None
          end
      | String c s1 => if is_special c then None else Some (Chr c, s1)
      end
  end.

Definition compile (src : string) : option re :=
  match parse_alt (4 * String.length src + 4) src with
  | Some (r, EmptyString) => Some r
  | _ => None
  end.

(** [nullable b r]: [r] matches the empty string, at the start of the
    subject when [b]. *)
Fixpoint nullable (b : bool) (r : re) : bool :=
  match r with
  | Eps | Star _ => true
  | Fail | Chr _ | Any => false
  | Bol => b
  | Seq r1 r2 => nullable b r1 && nullable b r2
  | Alt r1 r2 => nullable b r1 || nullable b r2
  end.

Fixpoint deriv (b : bool) (a : ascii) (r : re) : re :=
  match r with
  | Eps | Fail | Bol => Fail
  | Chr c => if Ascii.eqb a c then Eps else Fail
  | Any => if Ascii.eqb a LF then Fail else Eps
  | Seq r1 r2 =>
      Alt (Seq (deriv b a r1) r2) (if nullable b r1 then deriv b a r2 else Fail)
  | Alt r1 r2 => Alt (deriv b a r1) (deriv b a r2)
  | Star r1 => Seq (deriv b a r1) (Star r1)
  end.

(** Some prefix of [s] matches [r]. *)
Fixpoint matches (b : bool) (r : re) (s : string) : bool :=
  nullable b r ||
  match s with
  | EmptyString => false
  | String a s' => matches false (deriv b a r) s'
  end.

Definition regex : Regex :=
  {| Pattern := re; re_compile := compile; re_match := matches true |}.
End RegexLite.

(** ** The scenario of the specification *)

Definition scenario_set (d1 d2 : string) : list Expression.t :=
  [ Expression.mk d1 "^ERROR" [];
    Expression.mk d2 "^WARN" ["^WARN: deprecated"] ].

Definition scenario_lines : list string :=
  [ "ERROR start"; "  detail1"; "  detail2"; "WARN: deprecated"; "  detail3"; "ERROR again" ].

(** The lines as a text file yields them, each with its terminator. *)
Definition as_file (lines : list string) : list string :=
  (λ l, l ++ NL)%string <$> lines.

(** ** Concrete inputs *)

Definition e_error : Expression.t := Expression.mk "an error" "^ERROR" [].
Definition e_warn : Expression.t := Expression.mk "a warning" "^WARN" ["^WARN: deprecated"].
Definition e_err : Expression.t := Expression.mk "any ERR" "^ERR" [].

(** An Expression whose source Python rejects: a parenthesis left open. *)
Definition e_open : Expression.t := Expression.mk "left open" "(" [].

(** A counter in which [e_err] and [e_error] are tied. *)
Definition tied_counter : MatchCounter :=
  {[ Expression.id e_err := 1%nat; Expression.id e_error := 1%nat; Expression.id e_warn := 2%nat ]}.

(** ** Notions used in the statements *)

(** The lines the loop of [split_text] works on: each raw line stripped of
    its terminator, blank ones dropped. *)
Definition lines_of (file : list string) : list string :=
  List.filter (λ l, negb (String.eqb l "")) (strip LF <$> file).

Section notions.
Context `{Regex}.

(** The boundary test of one Expression on one line: [None] when the
    pattern does not compile, else whether it matches at the start. *)
Definition boundary_test (e : Expression.t) (line : string) : option bool :=
  (λ p, re_match p line) <$> re_compile (Expression.expression e).

(** The Expression [scan] stops at, if any; it raises where [scan]
    does when it reaches a pattern that does not compile. *)
Fixpoint first_match (regex_data : list Expression.t) (line : string)
    : exc (option Expression.t) :=
  match regex_data with
  | [] => Return None
  | regexp :: regex_data' =>
      p ← Expression.pattern regexp;
      if re_match p line then Return (Some regexp) else first_match regex_data' line
  end.

(** The line is won by an Expression of id [k]. *)
Definition won_by (regex_data : list Expression.t) (k : string) (line : string) : bool :=
  match first_match regex_data line with
  | Return (Some e) => String.eqb (Expression.id e) k
  | _ => false
  end.

(** The number of lines won by an Expression of id [k]. *)
Definition wins (regex_data : list Expression.t) (k : string) (lines : list string) : nat :=
  List.length (List.filter (won_by regex_data k) lines).

(** Closing out the current group when a boundary line arrives. *)
Definition close_out (st : state) : exc (list (string * bool)) :=
  if (1 <? List.length (current_group st))%nat
  then push (current_regexp st) (current_group st) (result st)
  else Return (result st).
End notions.

(** The lines [group] are consecutive lines of [lines]. *)
Definition consecutive_in (group lines : list string) : Prop :=
  ∃ before after, lines = before ++ group ++ after.

(** A paragraph made of two or more consecutive lines of [lines], joined
    by the line terminator. *)
Definition paragraph_of (lines : list string) (par : string * bool) : Prop :=
  ∃ group, (2 ≤ List.length group)%nat ∧ par.1 = join NL group ∧ consecutive_in group lines.

(** The invariant of the loop on emitted paragraphs: the current group is
    the tail of the lines seen so far, and each paragraph emitted so far is
    made of two or more consecutive lines seen. *)
Definition group_inv (seen : list string) (st : state) : Prop :=
  (∃ before, seen = before ++ current_group st) ∧
  Forall (paragraph_of seen) (result st).

(** The entry a counter holds for a key incremented [n] times: none when
    it was never incremented. *)
Definition entry (n : nat) : option nat :=
  match n with
  | O => None
  | S _ => Some n
  end.

(** [sorted] is [l] in descending order of [key], elements of equal key
    in their order in [l]. *)
Definition stable_descending {A : Type} (key : A → nat) (l sorted : list A) : Prop :=
  sorted ≡ₚ l ∧
  StronglySorted (λ a b, (key b ≤ key a)%nat) sorted ∧
  ∀ c, List.filter (λ x, key x =? c)%nat sorted = List.filter (λ x, key x =? c)%nat l.


(** The count an Expression is sorted by in [report]. *)
Definition count_of (counter : MatchCounter) (e : Expression.t) : nat :=
  counter !!! Expression.id e.

(** What a row shows of its Expression. *)
Definition row_info (r : row) : string * string * nat :=
  (row_expression r, row_desc r, row_count r).

Definition expression_info (counter : MatchCounter) (e : Expression.t) : string * string * nat :=
  (Expression.expression e, Expression.desc e, count_of counter e).

(** ** The end of main

    After the report, [main] shows the paragraphs that are not excluded in
    a pager, or says that all is clear. [no_multi] is the flag of the
    command line; [confirm] is the answer to the question, which is asked
    only without the flag. *)

Inductive review : Type :=
  | Pager (pages : list string)
  | AllClear
  | Nothing.

#[global] Instance review_eq_dec : EqDecision review.
Proof. solve_decision. Defined.

(** ['-'*16]. *)
Definition dashes : string := "----------------".

Definition sep : string := (NL ++ NL ++ dashes ++ "endline" ++ dashes ++ NL ++ NL)%string.

Definition review_of (no_multi confirm : bool) (multi_line : list (string * bool)) : review :=
  if (0 <? sum_list ((λ i : string * bool, if i.2 then 0 else 1) <$> multi_line))%nat then
    if negb no_multi && confirm then
      Pager ((λ i : string * bool, i.1 ++ sep)%string
               <$> List.filter (λ i : string * bool, negb i.2) multi_line)
    else Nothing
  else AllClear.

(** [main] with its flag and the answer of the user. *)
Definition main_review `{Regex} (file : list string) (regex_data : list Expression.t)
    (no_multi confirm : bool) : exc (report_data * review) :=
  r ← split_text file regex_data;
  rep ← report r.2 regex_data (Some r.1);
  Return (rep, review_of no_multi confirm r.1).

(** ** Notions used in the further properties *)

Section further_notions.
Context `{Regex}.

(** The line is a boundary line: some Expression wins it. *)
Definition is_boundary (regex_data : list Expression.t) (line : string) : bool :=
  match first_match regex_data line with
  | Return (Some _) => true
  | _ => false
  end.

(** The number of boundary lines. *)
Definition boundaries (regex_data : list Expression.t) (lines : list string) : nat :=
  List.length (List.filter (is_boundary regex_data) lines).

(** The paragraph of one group and its owner: none for fewer than two
    lines. *)
Definition emit (g : Expression.t * list string) : exc (list (string * bool)) :=
  if (List.length g.2 <? 2)%nat then Return []
  else
    excluded ← Expression.should_exclude g.1 (join NL g.2);
    Return [(join NL g.2, excluded)].

(** The end of [split_text], after the loop. *)
Definition finish (st : state) : exc (list (string * bool) * MatchCounter) :=
  result' ← (if (1 <? List.length (current_group st))%nat && bool_decide (is_Some (current_regexp st))
             then push (current_regexp st) (current_group st) (result st)
             else Return (result st));
  Return (result', match_count st).
End further_notions.

(** Lines, each with the Expression that wins it if any, cut at the
    boundary lines: the lines before the first boundary line, then the
    groups, each with its owner and its lines, the boundary line first. *)
Fixpoint group_lines (cl : list (string * option Expression.t))
    : list string * list (Expression.t * list string) :=
  match cl with
  | [] => ([], [])
  | lw :: cl' =>
      let lg := group_lines cl' in
      match lw.2 with
      | None => (lw.1 :: lg.1, lg.2)
      | Some e => ([], (e, lw.1 :: lg.1) :: lg.2)
      end
  end.

(** One increment per group, in the slot of the id of its owner. *)
Definition count_owners (gs : list (Expression.t * list string)) (counter : MatchCounter)
    : MatchCounter :=
  foldl (λ m g, <[Expression.id g.1 := S (m !!! Expression.id g.1)]> m) counter gs.

(** What the loop and the end of [split_text] compute from a state [st]
    and the grouping [lg] of the lines still to come. *)
Definition segmentation_from `{Regex} (st : state)
    (lg : list string * list (Expression.t * list string))
    : exc (list (string * bool) * MatchCounter) :=
  let st' := {| result := result st;
                current_group := current_group st ++ lg.1;
                current_regexp := current_regexp st;
                match_count := match_count st |} in
  match lg.2 with
  | [] => finish st'
  | _ :: _ =>
      r0 ← close_out st';
      rs ← mapM emit lg.2;
      Return (r0 ++ concat rs, count_owners lg.2 (match_count st))
  end.

(** The segmentation of classified lines: without a boundary line,
    nothing; with two lines or more before the first boundary line, the
    fault; else the paragraphs of the groups, and one count per group. *)
Definition segmentation `{Regex} (cl : list (string * option Expression.t))
    : exc (list (string * bool) * MatchCounter) :=
  let lg := group_lines cl in
  match lg.2 with
  | [] => Return ([], ∅)
  | _ :: _ =>
      if (List.length lg.1 <? 2)%nat then
        rs ← mapM emit lg.2;
        Return (concat rs, count_owners lg.2 ∅)
      else Raise AttributeError
  end.

(** The invariant of the loop on the total of the counter: it is the
    number of boundary lines seen, and it bounds the number of paragraphs
    emitted, the open group of an owner counted as one. *)
Definition total_inv `{Regex} (regex_data : list Expression.t) (seen : list string)
    (st : state) : Prop :=
  sum_values (match_count st) = boundaries regex_data seen
  ∧ (List.length (result st) + (match current_regexp st with Some _ => 1 | None => 0 end)
     ≤ sum_values (match_count st))%nat.

(** A paragraph with its owner: a boundary line that [e] wins, then at
    least one line that no Expression wins, joined by the terminator;
    excluded as [should_exclude] of [e] says. *)
Definition owned_paragraph `{Regex} (regex_data : list Expression.t)
    (par : string * bool) : Prop :=
  ∃ e first rest,
    rest ≠ []
    ∧ par.1 = join NL (first :: rest)
    ∧ first_match regex_data first = Return (Some e)
    ∧ Forall (λ l, first_match regex_data l = Return None) rest
    ∧ Expression.should_exclude e par.1 = Return par.2.

(** The invariant of the loop on owners: the group of an owner starts
    with a line the owner wins and goes on with lines nobody wins; the
    paragraphs emitted are owned. *)
Definition owner_inv `{Regex} (regex_data : list Expression.t) (st : state) : Prop :=
  match current_regexp st with
  | Some e =>
      ∃ first rest,
        current_group st = first :: rest
        ∧ first_match regex_data first = Return (Some e)
        ∧ Forall (λ l, first_match regex_data l = Return None) rest
  | None => True
  end
  ∧ Forall (owned_paragraph regex_data) (result st).

(** What a row shows of its Expression, in terms of the lines of the
    file: the count is the number of lines won under the id. *)
Definition wins_info `{Regex} (regex_data : list Expression.t) (lines : list string)
    (e : Expression.t) : string * string * nat :=
  (Expression.expression e, Expression.desc e, wins regex_data (Expression.id e) lines).

(** The paragraphs not excluded, which [main] leaves for review. *)
Definition unexcluded (multi_line : list (string * bool)) : list (string * bool) :=
  List.filter (λ i : string * bool, negb i.2) multi_line.

(** ** Further concrete inputs *)

(** An Expression with a known source that Python rejects, after one
    that it accepts. *)
Definition e_warn_open : Expression.t :=
  Expression.mk "a warning" "^WARN" ["^WARN: deprecated"; "("].

(** An Expression with the source of [e_error]. *)
Definition e_error_again : Expression.t :=
  Expression.mk "errors again" "^ERROR" ["^ERROR start"].

(** What [split_text] returns on the scenario. *)
Definition scenario_result : list (string * bool) :=
  [ (join NL ["ERROR start"; "  detail1"; "  detail2"], false);
    (join NL ["WARN: deprecated"; "  detail3"], true) ].

Definition scenario_counts : MatchCounter :=
  {[ Expression.id e_error := 2%nat; Expression.id e_warn := 1%nat ]}.

(** The report of the scenario. *)
Definition scenario_report : report_data :=
  {| summary := Some (2%nat, 3%nat, 1%nat);
     table := [ mkrow "^ERROR" "an error" 2 (200 # 3);
                mkrow "^WARN" "a warning" 1 (100 # 3) ];
     final_expression := "(^ERROR|^WARN).*" |}.

(** * Properties *)

(** ** The exception monad and the loop *)

Lemma bind_Return {A B : Type} (a : A) (f : A → exc B) : (Return a ≫= f) = f a.
Proof. reflexivity. Qed.

Lemma bind_Raise {A B : Type} (e : exn) (f : A → exc B) : (Raise e ≫= f) = Raise e.
Proof. reflexivity. Qed.

Lemma bind_Return_inv {A B : Type} (m : exc A) (f : A → exc B) (b : B) :
  (m ≫= f) = Return b → ∃ a, m = Return a ∧ f a = Return b.
Proof. destruct m as [a|e]; [eauto | discriminate]. Qed.

Lemma for_each_app {A St : Type} (body : St → A → exc St) (l1 l2 : list A) (st : St) :
  for_each body (l1 ++ l2) st = (for_each body l1 st ≫= for_each body l2).
Proof.
  revert st. induction l1 as [|x l1 IH]; intros st; simpl; [reflexivity|].
  destruct (body st x) as [st'|e]; simpl; [apply IH | reflexivity].
Qed.

(** ** The scan of one line *)

Section scan_facts.
Context `{Regex}.

Lemma pattern_boundary_test (e : Expression.t) (line : string) (b : bool) :
  boundary_test e line = Some b →
  ∃ p, Expression.pattern e = Return p ∧ re_match p line = b.
Proof.
  unfold boundary_test, Expression.pattern.
  destruct (re_compile (Expression.expression e)) as [p|]; simpl; [|discriminate].
  intros [= <-]. eauto.
Qed.

Lemma pattern_boundary_test_None (e : Expression.t) (line : string) :
  boundary_test e line = None →
  Expression.pattern e = Raise (re_error (Expression.expression e)).
Proof.
  unfold boundary_test, Expression.pattern.
  destruct (re_compile (Expression.expression e)); simpl; [discriminate | reflexivity].
Qed.

(** [scan] is the search for the first match followed by the action on
    its outcome. *)
Lemma scan_first_match (regex_data : list Expression.t) (line : string) (st : state) :
  scan regex_data line st =
    (first_match regex_data line ≫= λ w,
     match w with
     | Some e =>
         close_out st ≫= λ result',
         Return {| result := result';
                   current_group := [line];
                   current_regexp := Some e;
                   match_count :=
                     <[Expression.id e := S (match_count st !!! Expression.id e)]>
                       (match_count st) |}
     | None =>
         Return {| result := result st;
                   current_group := current_group st ++ [line];
                   current_regexp := current_regexp st;
                   match_count := match_count st |}
     end).
Proof.
  induction regex_data as [|regexp rd IH]; simpl; [reflexivity|].
  destruct (Expression.pattern regexp) as [p|e]; simpl; [|reflexivity].
  destruct (re_match p line); [reflexivity | apply IH].
Qed.

Lemma first_match_skip (pre rest : list Expression.t) (line : string) :
  Forall (λ e, boundary_test e line = Some false) pre →
  first_match (pre ++ rest) line = first_match rest line.
Proof.
  induction 1 as [|e pre He _ IH]; simpl; [reflexivity|].
  destruct (pattern_boundary_test _ _ _ He) as (p & Hp & Hm).
  rewrite Hp. simpl. rewrite Hm. exact IH.
Qed.

Lemma first_match_here (e : Expression.t) (rest : list Expression.t) (line : string) :
  boundary_test e line = Some true →
  first_match (e :: rest) line = Return (Some e).
Proof.
  intros He. simpl.
  destruct (pattern_boundary_test _ _ _ He) as (p & Hp & Hm).
  rewrite Hp. simpl. rewrite Hm. reflexivity.
Qed.

Lemma first_match_none (regex_data : list Expression.t) (line : string) :
  Forall (λ e, boundary_test e line = Some false) regex_data →
  first_match regex_data line = Return None.
Proof.
  intros Hall. rewrite <- (app_nil_r regex_data).
  rewrite first_match_skip by exact Hall. reflexivity.
Qed.

Lemma first_match_raise (pre : list Expression.t) (e : Expression.t)
    (rest : list Expression.t) (line : string) :
  Forall (λ e', boundary_test e' line = Some false) pre →
  boundary_test e line = None →
  first_match (pre ++ e :: rest) line = Raise (re_error (Expression.expression e)).
Proof.
  intros Hpre He. rewrite first_match_skip by exact Hpre. simpl.
  rewrite (pattern_boundary_test_None _ _ He). reflexivity.
Qed.

(** When every pattern compiles and one matches, the scan finds a
    first match. *)
Lemma first_match_exists (regex_data : list Expression.t) (line : string) :
  Forall (λ e, is_Some (boundary_test e line)) regex_data →
  Exists (λ e, boundary_test e line = Some true) regex_data →
  ∃ e, first_match regex_data line = Return (Some e).
Proof.
  induction 1 as [|e rd [b He] _ IH]; intros Hex; [inversion Hex|].
  destruct b.
  - exists e. apply first_match_here, He.
  - apply Exists_cons in Hex as [Hex|Hex]; [congruence|].
    destruct (IH Hex) as [e' He']. exists e'.
    change (e :: rd) with ([e] ++ rd). rewrite first_match_skip; [exact He'|].
    constructor; [exact He | constructor].
Qed.

Lemma body_blank (regex_data : list Expression.t) (st : state) (raw : string) :
  strip LF raw = "" → body regex_data st raw = Return st.
Proof. unfold body. intros ->. reflexivity. Qed.

Lemma body_nonblank (regex_data : list Expression.t) (st : state) (raw : string) :
  strip LF raw ≠ "" → body regex_data st raw = scan regex_data (strip LF raw) st.
Proof.
  unfold body. intros Hne.
  destruct (String.eqb_spec (strip LF raw) ""); [contradiction | reflexivity].
Qed.
End scan_facts.

(** C7. First match wins: for a non-blank line, when the Expressions
    before [e] in the configured order compile and do not match it, and
    [e] matches it, the step of the loop makes [e] the owner of a new
    group holding the line alone, increments the counter slot of [e] and
    no other, and does not depend on the Expressions after [e] (they are
    not evaluated, whether they would match, fail to compile or not). *)
Theorem C7_first_match_wins `{Regex} (pre : list Expression.t) (e : Expression.t)
    (post : list Expression.t) (raw : string) (st : state) :
  let line := strip LF raw in
  line ≠ "" →
  Forall (λ e', boundary_test e' line = Some false) pre →
  boundary_test e line = Some true →
  let counts' :=
    <[Expression.id e := S (match_count st !!! Expression.id e)]> (match_count st) in
  body (pre ++ e :: post) st raw =
    (close_out st ≫= λ result',
     Return {| result := result';
               current_group := [line];
               current_regexp := Some e;
               match_count := counts' |})
  ∧ body (pre ++ e :: post) st raw = body (pre ++ [e]) st raw
  ∧ counts' !!! Expression.id e = S (match_count st !!! Expression.id e)
  ∧ ∀ k, k ≠ Expression.id e → counts' !! k = match_count st !! k.
Proof.
  intros line Hline Hpre He counts'.
  assert (Hstep : ∀ rest, body (pre ++ e :: rest) st raw =
    (close_out st ≫= λ result',
     Return {| result := result'; current_group := [line];
               current_regexp := Some e; match_count := counts' |})).
  { intros rest. rewrite body_nonblank by exact Hline.
    rewrite scan_first_match, first_match_skip by exact Hpre.
    rewrite first_match_here by exact He. reflexivity. }
  split; [apply Hstep|]. split; [rewrite (Hstep post), (Hstep []); reflexivity|].
  split.
  - unfold counts'. rewrite lookup_total_insert_eq. reflexivity.
  - intros k Hk. unfold counts'. rewrite lookup_insert_ne by congruence. reflexivity.
Qed.

(** ** The lines of a file *)

Lemma lines_of_cons (raw : string) (file : list string) :
  lines_of (raw :: file) =
    if String.eqb (strip LF raw) "" then lines_of file else strip LF raw :: lines_of file.
Proof. unfold lines_of. simpl. destruct (String.eqb (strip LF raw) ""); reflexivity. Qed.

Lemma lines_of_app (file1 file2 : list string) :
  lines_of (file1 ++ file2) = lines_of file1 ++ lines_of file2.
Proof.
  induction file1 as [|raw file1 IH]; [reflexivity|].
  rewrite <- app_comm_cons, !lines_of_cons, IH.
  destruct (String.eqb (strip LF raw) ""); reflexivity.
Qed.

Lemma lines_of_nonblank (file : list string) : Forall (λ l, l ≠ "") (lines_of file).
Proof.
  induction file as [|raw file IH]; [constructor|].
  rewrite lines_of_cons. destruct (String.eqb_spec (strip LF raw) ""); [exact IH|].
  constructor; assumption.
Qed.

(** ** Lines before the first boundary match *)

Section unowned.
Context `{Regex}.

Lemma boundary_test_is_Some (e : Expression.t) (l l' : string) :
  is_Some (boundary_test e l) → is_Some (boundary_test e l').
Proof.
  unfold boundary_test. destruct (re_compile (Expression.expression e)); simpl.
  - eauto.
  - intros [? [=]].
Qed.

(** While no line matches, the loop only appends to the current group:
    no owner is set, nothing is emitted, nothing is counted. *)
Lemma for_each_no_match (file : list string) (regex_data : list Expression.t) (st : state) :
  Forall (λ line, Forall (λ e, boundary_test e line = Some false) regex_data) (lines_of file) →
  for_each (body regex_data) file st =
    Return {| result := result st;
              current_group := current_group st ++ lines_of file;
              current_regexp := current_regexp st;
              match_count := match_count st |}.
Proof.
  revert st. induction file as [|raw file IH]; intros st Hall.
  - simpl. rewrite app_nil_r. destruct st; reflexivity.
  - rewrite lines_of_cons in Hall |- *. simpl.
    destruct (String.eqb_spec (strip LF raw) "") as [Hb|Hb].
    + rewrite body_blank by exact Hb. simpl. apply IH, Hall.
    + apply Forall_cons in Hall as [Hraw Hall].
      rewrite body_nonblank, scan_first_match, first_match_none by assumption.
      simpl. rewrite IH by exact Hall. simpl. rewrite <- app_assoc. reflexivity.
Qed.
End unowned.

(** C10. When no line matches any configured boundary pattern (each
    pattern compiles and fails on every non-blank line), the loop ends
    with all the non-blank lines accumulated in a group without owner, and
    [split_text] returns no paragraph and an empty counter: the trailing
    group, however long, is dropped. *)
Theorem C10_no_match_returns_empty `{Regex} (file : list string)
    (regex_data : list Expression.t) :
  Forall (λ line, Forall (λ e, boundary_test e line = Some false) regex_data) (lines_of file) →
  for_each (body regex_data) file init =
    Return {| result := []; current_group := lines_of file;
              current_regexp := None; match_count := ∅ |}
  ∧ split_text file regex_data = Return ([], ∅).
Proof.
  intros Hall.
  pose proof (for_each_no_match file regex_data init Hall) as Hloop. simpl in Hloop.
  split; [exact Hloop|].
  unfold split_text. rewrite Hloop. simpl.
  rewrite andb_false_r. reflexivity.
Qed.

(** C1. Two or more non-blank lines before the first boundary match: the
    lines before [raw] match no pattern, [raw] is a non-blank line that
    some pattern matches. Closing out the group at [raw] looks up
    [should_exclude] on [None], and [split_text] raises [AttributeError]:
    the group is neither emitted nor dropped. *)
Theorem C1_unowned_group_raises `{Regex} (before : list string) (raw : string)
    (rest : list string) (regex_data : list Expression.t) :
  Forall (λ line, Forall (λ e, boundary_test e line = Some false) regex_data) (lines_of before) →
  (2 ≤ List.length (lines_of before))%nat →
  strip LF raw ≠ "" →
  Exists (λ e, boundary_test e (strip LF raw) = Some true) regex_data →
  split_text (before ++ raw :: rest) regex_data = Raise AttributeError.
Proof.
  intros Hbefore Hlen Hraw Hex.
  assert (Hcomp : Forall (λ e, is_Some (boundary_test e (strip LF raw))) regex_data).
  { destruct (lines_of before) as [|l0 ls]; [simpl in Hlen; lia|].
    apply Forall_cons in Hbefore as [Hl0 _].
    eapply Forall_impl; [exact Hl0|]. intros e He.
    apply (boundary_test_is_Some e l0). rewrite He. eauto. }
  destruct (first_match_exists _ _ Hcomp Hex) as [e He].
  unfold split_text. rewrite for_each_app.
  rewrite for_each_no_match by exact Hbefore. simpl.
  rewrite body_nonblank, scan_first_match, He by exact Hraw. simpl.
  unfold close_out, push. simpl.
  destruct (Nat.ltb_spec 1 (List.length (lines_of before))); [|lia].
  destruct (Nat.ltb_spec (List.length (lines_of before)) 2); [lia|].
  reflexivity.
Qed.

(** ** Emitted paragraphs *)

Lemma consecutive_in_app_r (group lines more : list string) :
  consecutive_in group lines → consecutive_in group (lines ++ more).
Proof.
  intros (before & after & ->). exists before, (after ++ more).
  rewrite <- !app_assoc. reflexivity.
Qed.

Lemma paragraph_of_app_r (lines more : list string) (par : string * bool) :
  paragraph_of lines par → paragraph_of (lines ++ more) par.
Proof.
  intros (group & Hlen & Hpar & Hcons). exists group.
  split; [exact Hlen|]. split; [exact Hpar|]. apply consecutive_in_app_r, Hcons.
Qed.

Section paragraphs.
Context `{Regex}.

(** [push] leaves the result alone or appends the joined lines, and the
    latter only for two lines or more. *)
Lemma push_Return (owner : option Expression.t) (lines : list string)
    (res res' : list (string * bool)) :
  push owner lines res = Return res' →
  res' = res ∨
  ((2 ≤ List.length lines)%nat ∧ ∃ excluded, res' = res ++ [(join NL lines, excluded)]).
Proof.
  unfold push. destruct (Nat.ltb_spec (List.length lines) 2) as [Hlt|Hge].
  - intros [= <-]. left. reflexivity.
  - destruct owner as [e|]; [|discriminate].
    intros Hb. apply bind_Return_inv in Hb as (excluded & _ & [= <-]).
    right. split; [exact Hge | eauto].
Qed.

Lemma close_out_Return (st : state) (res' : list (string * bool)) :
  close_out st = Return res' →
  res' = result st ∨
  ((2 ≤ List.length (current_group st))%nat ∧
   ∃ excluded, res' = result st ++ [(join NL (current_group st), excluded)]).
Proof.
  unfold close_out. destruct (1 <? List.length (current_group st))%nat.
  - apply push_Return.
  - intros [= <-]. left. reflexivity.
Qed.

Lemma group_inv_scan (regex_data : list Expression.t) (line : string)
    (seen : list string) (st st' : state) :
  group_inv seen st →
  scan regex_data line st = Return st' →
  group_inv (seen ++ [line]) st'.
Proof.
  intros [[before Hseen] Hres]. rewrite scan_first_match.
  intros Hb. apply bind_Return_inv in Hb as (w & _ & Hw).
  assert (Hmono : Forall (paragraph_of (seen ++ [line])) (result st)).
  { eapply Forall_impl; [exact Hres|]. intros par. apply paragraph_of_app_r. }
  destruct w as [e|].
  - apply bind_Return_inv in Hw as (res' & Hclose & [= <-]).
    split; simpl; [exists seen; reflexivity|].
    apply close_out_Return in Hclose as [->|[Hlen [excluded ->]]]; [exact Hmono|].
    apply Forall_app. split; [exact Hmono|].
    constructor; [|constructor].
    exists (current_group st). split; [exact Hlen|]. split; [reflexivity|].
    exists before, [line]. rewrite Hseen, <- app_assoc. reflexivity.
  - injection Hw as <-. split; simpl; [|exact Hmono].
    exists before. rewrite Hseen, <- app_assoc. reflexivity.
Qed.

Lemma group_inv_for_each (regex_data : list Expression.t) (file : list string)
    (seen : list string) (st st' : state) :
  group_inv seen st →
  for_each (body regex_data) file st = Return st' →
  group_inv (seen ++ lines_of file) st'.
Proof.
  revert seen st. induction file as [|raw file IH]; intros seen st Hinv.
  - simpl. intros [= <-]. rewrite app_nil_r. exact Hinv.
  - simpl. intros Hb. apply bind_Return_inv in Hb as (st1 & Hbody & Hrest).
    rewrite lines_of_cons.
    destruct (String.eqb_spec (strip LF raw) "") as [Hblank|Hblank].
    + rewrite body_blank in Hbody by exact Hblank. injection Hbody as <-.
      eapply IH; eassumption.
    + rewrite body_nonblank in Hbody by exact Hblank.
      change (strip LF raw :: lines_of file) with ([strip LF raw] ++ lines_of file).
      rewrite app_assoc. eapply IH; [|exact Hrest].
      eapply group_inv_scan; eassumption.
Qed.
End paragraphs.

(** C6. Every paragraph [split_text] returns is the join of two or more
    consecutive non-blank lines of the input: none is emitted for a group
    of no line or of one line. *)
Theorem C6_paragraph_two_lines `{Regex} (file : list string)
    (regex_data : list Expression.t) (res : list (string * bool)) (counts : MatchCounter) :
  split_text file regex_data = Return (res, counts) →
  Forall (paragraph_of (lines_of file)) res.
Proof.
  unfold split_text. intros Hb.
  apply bind_Return_inv in Hb as (st & Hloop & Hb).
  apply bind_Return_inv in Hb as (res' & Hfinal & [= <- _]).
  assert (Hinv : group_inv (lines_of file) st).
  { apply (group_inv_for_each regex_data file [] init); [|exact Hloop].
    split; [exists []; reflexivity | constructor]. }
  destruct Hinv as [[before Hseen] Hres].
  destruct ((1 <? List.length (current_group st))%nat && bool_decide (is_Some (current_regexp st))).
  - apply push_Return in Hfinal as [->|[Hlen [excluded ->]]]; [exact Hres|].
    apply Forall_app. split; [exact Hres|]. constructor; [|constructor].
    exists (current_group st). split; [exact Hlen|]. split; [reflexivity|].
    exists before, []. rewrite app_nil_r. exact Hseen.
  - injection Hfinal as <-. exact Hres.
Qed.

(** ** The match counter *)

Section counter.
Context `{Regex}.

Lemma wins_app (regex_data : list Expression.t) (k : string) (lines1 lines2 : list string) :
  wins regex_data k (lines1 ++ lines2) =
    (wins regex_data k lines1 + wins regex_data k lines2)%nat.
Proof. unfold wins. rewrite List.filter_app, length_app. reflexivity. Qed.

Lemma wins_one (regex_data : list Expression.t) (k : string) (line : string) :
  wins regex_data k [line] = if won_by regex_data k line then 1%nat else 0%nat.
Proof. unfold wins. simpl. destruct (won_by regex_data k line); reflexivity. Qed.

Lemma lookup_total_entry (counts : MatchCounter) (k : string) (n : nat) :
  counts !! k = entry n → counts !!! k = n.
Proof.
  intros Hk. rewrite lookup_total_alt, Hk. destruct n; reflexivity.
Qed.

(** The invariant of the loop on the counter: the entry of each key is
    the number of lines seen that an Expression of that id won. *)
Lemma counts_scan (regex_data : list Expression.t) (line : string)
    (seen : list string) (st st' : state) :
  (∀ k, match_count st !! k = entry (wins regex_data k seen)) →
  scan regex_data line st = Return st' →
  ∀ k, match_count st' !! k = entry (wins regex_data k (seen ++ [line])).
Proof.
  intros Hinv. rewrite scan_first_match.
  intros Hb k. apply bind_Return_inv in Hb as (w & Hfirst & Hw).
  rewrite wins_app, wins_one. unfold won_by. rewrite Hfirst.
  destruct w as [e|].
  - apply bind_Return_inv in Hw as (res' & _ & [= <-]). simpl.
    destruct (String.eqb_spec (Expression.id e) k) as [->|Hne].
    + rewrite lookup_insert_eq, (lookup_total_entry _ _ _ (Hinv _)).
      rewrite Nat.add_1_r. reflexivity.
    + rewrite lookup_insert_ne, Nat.add_0_r by exact Hne. apply Hinv.
  - injection Hw as <-. simpl. rewrite Nat.add_0_r. apply Hinv.
Qed.

Lemma counts_for_each (regex_data : list Expression.t) (file : list string)
    (seen : list string) (st st' : state) :
  (∀ k, match_count st !! k = entry (wins regex_data k seen)) →
  for_each (body regex_data) file st = Return st' →
  ∀ k, match_count st' !! k = entry (wins regex_data k (seen ++ lines_of file)).
Proof.
  revert seen st. induction file as [|raw file IH]; intros seen st Hinv.
  - simpl. intros [= <-]. rewrite app_nil_r. exact Hinv.
  - simpl. intros Hb. apply bind_Return_inv in Hb as (st1 & Hbody & Hrest).
    rewrite lines_of_cons.
    destruct (String.eqb_spec (strip LF raw) "") as [Hblank|Hblank].
    + rewrite body_blank in Hbody by exact Hblank. injection Hbody as <-.
      eapply IH; eassumption.
    + rewrite body_nonblank in Hbody by exact Hblank.
      change (strip LF raw :: lines_of file) with ([strip LF raw] ++ lines_of file).
      rewrite app_assoc. eapply IH; [|exact Hrest].
      eapply counts_scan; eassumption.
Qed.
End counter.


(** ** The stable descending sort *)

Section sorted_facts.
Context {A : Type} (key : A → nat).

Lemma insert_desc_Permutation (x : A) (l : list A) : insert_desc key x l ≡ₚ x :: l.
Proof.
  induction l as [|y l IH]; simpl; [reflexivity|].
  destruct (key x <? key y)%nat; [|reflexivity].
  rewrite IH. apply Permutation_swap.
Qed.

Lemma insert_desc_StronglySorted (x : A) (l : list A) :
  StronglySorted (λ a b, (key b ≤ key a)%nat) l →
  StronglySorted (λ a b, (key b ≤ key a)%nat) (insert_desc key x l).
Proof.
  induction 1 as [|y l Hl IH Hy]; simpl; [repeat constructor|].
  destruct (Nat.ltb_spec (key x) (key y)) as [Hlt|Hge].
  - constructor; [exact IH|].
    rewrite insert_desc_Permutation. constructor; [lia | exact Hy].
  - constructor; [constructor; assumption|].
    constructor; [exact Hge|].
    eapply Forall_impl; [exact Hy|]. simpl. intros z Hz. lia.
Qed.

Lemma insert_desc_filter (c : nat) (x : A) (l : list A) :
  List.filter (λ z, key z =? c)%nat (insert_desc key x l) =
  List.filter (λ z, key z =? c)%nat (x :: l).
Proof.
  induction l as [|y l IH]; [reflexivity|].
  simpl insert_desc. destruct (Nat.ltb_spec (key x) (key y)) as [Hlt|Hge]; [|reflexivity].
  simpl in *. rewrite IH.
  destruct (Nat.eqb_spec (key x) c), (Nat.eqb_spec (key y) c); try reflexivity; lia.
Qed.

(** [sorted_reverse] sorts in descending order and is stable. *)
Lemma sorted_reverse_stable_descending (l : list A) :
  stable_descending key l (sorted_reverse key l).
Proof.
  induction l as [|x l (Hperm & Hsorted & Hstable)].
  - split; [reflexivity|]. split; [constructor | reflexivity].
  - change (sorted_reverse key (x :: l)) with (insert_desc key x (sorted_reverse key l)).
    split; [rewrite insert_desc_Permutation, Hperm; reflexivity|].
    split; [apply insert_desc_StronglySorted, Hsorted|].
    intros c. rewrite insert_desc_filter. simpl. rewrite Hstable. reflexivity.
Qed.

Lemma filter_key_In (c : nat) (x : A) (l : list A) :
  In x (List.filter (λ z, key z =? c)%nat l) ↔ In x l ∧ key x = c.
Proof. rewrite List.filter_In, Nat.eqb_eq. reflexivity. Qed.

(** Two descending lists with the same elements of each key, in the same
    order, are equal. *)
Lemma descending_same_filters (s1 s2 : list A) :
  StronglySorted (λ a b, (key b ≤ key a)%nat) s1 →
  StronglySorted (λ a b, (key b ≤ key a)%nat) s2 →
  (∀ c, List.filter (λ x, key x =? c)%nat s1 = List.filter (λ x, key x =? c)%nat s2) →
  s1 = s2.
Proof.
  intros Hs1. revert s2. induction Hs1 as [|x s1 Hs1 IH Hx]; intros s2 Hs2 Hf.
  - destruct s2 as [|y s2]; [reflexivity|].
    specialize (Hf (key y)). simpl in Hf. rewrite Nat.eqb_refl in Hf. discriminate.
  - destruct Hs2 as [|y s2 Hs2 Hy].
    { specialize (Hf (key x)). simpl in Hf. rewrite Nat.eqb_refl in Hf. discriminate. }
    assert (Hxy : key x = key y).
    { apply Nat.le_antisymm.
      - assert (Hin : In x (y :: s2)).
        { apply (filter_key_In (key x)). rewrite <- Hf. apply filter_key_In.
          split; [left; reflexivity | reflexivity]. }
        destruct Hin as [->|Hin]; [lia|].
        rewrite Forall_forall in Hy. apply Hy, list_elem_of_In, Hin.
      - assert (Hin : In y (x :: s1)).
        { apply (filter_key_In (key y)). rewrite Hf. apply filter_key_In.
          split; [left; reflexivity | reflexivity]. }
        destruct Hin as [->|Hin]; [lia|].
        rewrite Forall_forall in Hx. apply Hx, list_elem_of_In, Hin. }
    assert (x = y) as <-.
    { specialize (Hf (key x)). simpl in Hf.
      rewrite <- Hxy, Nat.eqb_refl in Hf. congruence. }
    f_equal. apply IH; [exact Hs2|]. intros c. specialize (Hf c). simpl in Hf.
    destruct (key x =? c)%nat; congruence.
Qed.

(** So [stable_descending] determines the sorted list: any stable sort,
    Python's included, gives the list [sorted_reverse] gives. *)
Lemma stable_descending_unique (l s1 s2 : list A) :
  stable_descending key l s1 → stable_descending key l s2 → s1 = s2.
Proof.
  intros (_ & Hs1 & Hf1) (_ & Hs2 & Hf2).
  apply descending_same_filters; [assumption..|].
  intros c. rewrite Hf1, Hf2. reflexivity.
Qed.

Lemma sorted_reverse_nil_inv (l : list A) : sorted_reverse key l = [] → l = [].
Proof.
  intros Hnil. destruct (sorted_reverse_stable_descending l) as (Hperm & _).
  rewrite Hnil in Hperm. symmetry in Hperm. apply Permutation_nil_r in Hperm. exact Hperm.
Qed.
End sorted_facts.

(** ** The report *)

Lemma truediv_zero (a : nat) : truediv a 0 = Raise ZeroDivisionError.
Proof. reflexivity. Qed.

Lemma truediv_Return (a b : nat) : b ≠ 0%nat → ∃ q, truediv a b = Return q.
Proof.
  intros Hb. unfold truediv. destruct (Nat.eqb_spec b 0); [contradiction | eauto].
Qed.

Lemma report_row_Return (counter : MatchCounter) (total : nat)
    (acc : list row * list string) (e : Expression.t) :
  total ≠ 0%nat →
  ∃ r, report_row counter total acc e
         = Return (acc.1 ++ [r], acc.2 ++ [Expression.expression e])
       ∧ row_info r = expression_info counter e.
Proof.
  intros Htotal. unfold report_row.
  destruct (truediv_Return (counter !!! Expression.id e) total Htotal) as [q ->].
  simpl. eexists. split; reflexivity.
Qed.

(** With a total that is not zero the loop over the sorted Expressions
    runs to its end, adding one row and one component per Expression, in
    order. *)
Lemma report_rows_Return (counter : MatchCounter) (total : nat)
    (l : list Expression.t) (acc : list row * list string) :
  total ≠ 0%nat ∨ l = [] →
  ∃ acc', for_each (report_row counter total) l acc = Return acc'
    ∧ row_info <$> acc'.1 = (row_info <$> acc.1) ++ (expression_info counter <$> l)
    ∧ acc'.2 = acc.2 ++ (Expression.expression <$> l).
Proof.
  intros [Htotal| ->].
  - revert acc. induction l as [|e l IH]; intros acc.
    + exists acc. simpl. rewrite !app_nil_r. auto.
    + simpl. destruct (report_row_Return counter total acc e Htotal) as (r & -> & Hr).
      simpl. destruct (IH (acc.1 ++ [r], acc.2 ++ [Expression.expression e]))
        as (acc' & -> & Hrows & Hcomps).
      exists acc'. split; [reflexivity|]. simpl in Hrows, Hcomps.
      rewrite Hrows, Hcomps, fmap_app, <- !app_assoc. simpl. rewrite Hr. auto.
  - exists acc. simpl. rewrite !app_nil_r. auto.
Qed.

(** When [report] does not divide by zero, it returns the rows and the
    combined expression of the Expressions in stable descending order. *)
Lemma report_Return (counter : MatchCounter) (expressions : list Expression.t)
    (result : option (list (string * bool))) :
  sum_values counter ≠ 0%nat ∨ expressions = [] →
  ∃ rep es,
    report counter expressions result = Return rep
    ∧ stable_descending (count_of counter) expressions es
    ∧ row_info <$> table rep = expression_info counter <$> es
    ∧ final_expression rep = ("(" ++ join "|" (Expression.expression <$> es) ++ ").*")%string.
Proof.
  intros Hok. unfold report.
  set (es := sorted_reverse (λ x, counter !!! Expression.id x) expressions).
  destruct (report_rows_Return counter (sum_values counter) es ([], [])) as (acc & -> & Hrows & Hcomps).
  { destruct Hok as [Hne| ->]; [left; exact Hne | right; reflexivity]. }
  eexists _, es. split; [reflexivity|].
  split; [apply (sorted_reverse_stable_descending (count_of counter))|].
  simpl in *. rewrite Hrows, Hcomps. auto.
Qed.

(** C2. With a total of zero and at least one Expression, [report]
    computes [count / total] for the first row and raises
    [ZeroDivisionError]: no outcome for the absence of matches is reported. *)
Theorem C2_zero_total_raises (counter : MatchCounter) (expressions : list Expression.t)
    (result : option (list (string * bool))) :
  sum_values counter = 0%nat →
  expressions ≠ [] →
  report counter expressions result = Raise ZeroDivisionError.
Proof.
  intros Htotal Hne. unfold report. rewrite Htotal.
  destruct (sorted_reverse (λ x, counter !!! Expression.id x) expressions) as [|e es] eqn:Hes.
  - apply sorted_reverse_nil_inv in Hes. contradiction.
  - reflexivity.
Qed.

(** C8. In the report (whenever it does not divide by zero: the total is
    not zero, or there is no Expression) the rows are those of the
    Expressions in descending order of count, Expressions of equal count
    in their configured order. *)
Theorem C8_rows_stable_descending (counter : MatchCounter) (expressions : list Expression.t)
    (result : option (list (string * bool))) :
  sum_values counter ≠ 0%nat ∨ expressions = [] →
  ∃ rep es,
    report counter expressions result = Return rep
    ∧ row_info <$> table rep = expression_info counter <$> es
    ∧ es ≡ₚ expressions
    ∧ StronglySorted (λ a b, (count_of counter b ≤ count_of counter a)%nat) es
    ∧ ∀ c, List.filter (λ e, count_of counter e =? c)%nat es
           = List.filter (λ e, count_of counter e =? c)%nat expressions.
Proof.
  intros Hok.
  destruct (report_Return counter expressions result Hok)
    as (rep & es & Hrep & (Hperm & Hsorted & Hstable) & Hrows & _).
  exists rep, es. auto.
Qed.

(** C9. The combined expression (whenever [report] does not divide by
    zero) is the sources of all the Expressions, in stable descending
    order of count, with a bar between two sources and none at the ends
    (the Standard Library's [String.concat]), in parentheses, followed by
    [.*]. *)
Theorem C9_final_expression (counter : MatchCounter) (expressions : list Expression.t)
    (result : option (list (string * bool))) :
  sum_values counter ≠ 0%nat ∨ expressions = [] →
  ∃ rep es,
    report counter expressions result = Return rep
    ∧ stable_descending (count_of counter) expressions es
    ∧ final_expression rep
      = ("(" ++ String.concat "|" (Expression.expression <$> es) ++ ").*")%string.
Proof.
  intros Hok.
  destruct (report_Return counter expressions result Hok)
    as (rep & es & Hrep & Hsd & _ & Hfinal).
  exists rep, es. split; [exact Hrep|]. split; [exact Hsd|].
  rewrite Hfinal. unfold join. reflexivity.
Qed.

(** ** Running the loop line by line *)


Section line_by_line.
Context `{Regex}.




Lemma compile_known_Some (k : string) (p : Pattern) :
  re_compile k = Some p → Expression.compile_known k = Return p.
Proof. unfold Expression.compile_known. intros ->. reflexivity. Qed.

(** [should_exclude] when the known patterns compile: some pattern
    matches at the start of the paragraph. *)
Lemma should_exclude_known (e : Expression.t) (paragraph : string) (ps : list Pattern) :
  Forall2 (λ k p, re_compile k = Some p) (Expression.known e) ps →
  Expression.should_exclude e paragraph
    = Return (existsb (λ p, re_match p paragraph) ps).
Proof.
  unfold Expression.should_exclude. intros Hall.
  assert (Hm : mapM Expression.compile_known (Expression.known e) = Return ps).
  { induction Hall as [|k p ks ps Hk _ IH]; [reflexivity|].
    simpl. rewrite (compile_known_Some _ _ Hk). simpl. rewrite IH. reflexivity. }
  rewrite Hm. reflexivity.
Qed.

End line_by_line.



(** ** When a pattern is compiled *)

Section lazy_compile.
Context `{Regex}.

Lemma first_match_app_Some (pre rest : list Expression.t) (line : string) (e : Expression.t) :
  first_match pre line = Return (Some e) →
  first_match (pre ++ rest) line = Return (Some e).
Proof.
  induction pre as [|e' pre IH]; simpl; [discriminate|].
  destruct (Expression.pattern e') as [p|x]; simpl; [|discriminate].
  destruct (re_match p line); [intros [= <-]; reflexivity | exact IH].
Qed.

(** A run in which every non-blank line is won by an Expression of
    [pre] is the same whatever comes after [pre]: the patterns after it
    are never compiled, valid or not. *)
Lemma for_each_unreached (pre rest : list Expression.t) (file : list string) (st : state) :
  Forall (λ line, ∃ e, first_match pre line = Return (Some e)) (lines_of file) →
  for_each (body (pre ++ rest)) file st = for_each (body pre) file st.
Proof.
  revert st. induction file as [|raw file IH]; intros st Hall; [reflexivity|].
  rewrite lines_of_cons in Hall. simpl.
  destruct (String.eqb_spec (strip LF raw) "") as [Hb|Hb].
  - rewrite !body_blank by exact Hb. simpl. apply IH, Hall.
  - apply Forall_cons in Hall as [[e He] Hall].
    rewrite !body_nonblank, !scan_first_match by exact Hb.
    rewrite (first_match_app_Some _ rest _ _ He), He. simpl.
    destruct (close_out st) as [res|x]; simpl; [apply IH, Hall | reflexivity].
Qed.
End lazy_compile.

(** C3, as the code has it. A boundary pattern is compiled when the scan
    of a line first reaches its Expression, not before. For an Expression
    [e] whose source does not compile, configured after [pre] and before
    [post]:
    - nothing is raised at load time: on a file without lines
      [split_text] returns;
    - a run in which no line reaches [e] (every non-blank line is won by
      an Expression of [pre]) raises no error for [e]: its outcome is that
      of the run with [pre] alone;
    - if the lines before [raw] are processed without error, and [raw] is
      a non-blank line that the Expressions of [pre] do not match, then
      the loop raises the compilation error of [e] at [raw], after the
      lines before it, and so does [split_text] whatever follows. *)
Theorem C3_compile_error_at_first_use `{Regex} (pre : list Expression.t)
    (e : Expression.t) (post : list Expression.t) :
  re_compile (Expression.expression e) = None →
  split_text [] (pre ++ e :: post) = Return ([], ∅)
  ∧ (∀ file : list string,
       Forall (λ line, ∃ e', first_match pre line = Return (Some e')) (lines_of file) →
       split_text file (pre ++ e :: post) = split_text file pre)
  ∧ (∀ (before : list string) (raw : string) (rest : list string) (st : state),
       for_each (body (pre ++ e :: post)) before init = Return st →
       strip LF raw ≠ "" →
       Forall (λ e', boundary_test e' (strip LF raw) = Some false) pre →
       for_each (body (pre ++ e :: post)) (before ++ [raw]) init
         = Raise (re_error (Expression.expression e))
       ∧ split_text (before ++ raw :: rest) (pre ++ e :: post)
         = Raise (re_error (Expression.expression e))).
Proof.
  intros He. split; [reflexivity|]. split.
  - intros file Hall. unfold split_text.
    rewrite (for_each_unreached pre (e :: post) file init Hall). reflexivity.
  - intros before raw rest st Hbefore Hraw Hpre.
    assert (Hstep : body (pre ++ e :: post) st raw
                    = Raise (re_error (Expression.expression e))).
    { rewrite body_nonblank, scan_first_match by exact Hraw.
      rewrite first_match_raise; [reflexivity | exact Hpre |].
      unfold boundary_test. rewrite He. reflexivity. }
    split.
    + rewrite for_each_app, Hbefore. simpl. rewrite Hstep. reflexivity.
    + unfold split_text. rewrite for_each_app, Hbefore. simpl.
      rewrite Hstep. reflexivity.
Qed.

(** * The program on concrete inputs

    The facility is [RegexLite.regex]; every source used is in its
    fragment, or is rejected by Python too. *)

Example md5_empty : MD5.hexdigest "" = "d41d8cd98f00b204e9800998ecf8427e".
Proof. compute_done. Qed.

Example md5_abc : MD5.hexdigest "abc" = "900150983cd24fb0d6963f7d28e17f72".
Proof. compute_done. Qed.

Example md5_two_blocks :
  MD5.hexdigest "yyyyyyyyyyyyyyyyyyyyyyyyyyyyyyyyyyyyyyyyyyyyyyyyyyyyyyyy"
  = "6c830a5d23df58dbe0171eb5639bf3e4".
Proof. compute_done. Qed.

Example id_e_error : Expression.id e_error = "11fe349302804da2b0f0885394a76acc".
Proof. compute_done. Qed.

Example strip_terminators :
  strip LF (NL ++ "two" ++ NL ++ "lines" ++ NL ++ NL)%string = ("two" ++ NL ++ "lines")%string.
Proof. compute_done. Qed.

Example compile_open : RegexLite.compile "(" = None.
Proof. compute_done. Qed.

Example sorted_reverse_ties :
  sorted_reverse fst [(1, "a"); (3, "b"); (1, "c"); (3, "d"); (2, "e")]%nat
  = [(3, "b"); (3, "d"); (2, "e"); (1, "a"); (1, "c")]%nat.
Proof. compute_done. Qed.

Lemma C1_witness :
  @split_text RegexLite.regex (as_file ["noise 1"; "noise 2"; "ERROR start"]) [e_error; e_warn]
  = Raise AttributeError.
Proof.
  apply (@C1_unowned_group_raises RegexLite.regex
           (as_file ["noise 1"; "noise 2"]) ("ERROR start" ++ NL)%string [] [e_error; e_warn]).
  - compute_done.
  - compute_done.
  - compute_done.
  - compute_done.
Defined.

Lemma C2_witness : report ∅ [e_error; e_warn] (Some []) = Raise ZeroDivisionError.
Proof. apply C2_zero_total_raises; [reflexivity | discriminate]. Defined.

(** The same from [main]: an empty file. *)
Example main_empty_file : @main RegexLite.regex [] [e_error; e_warn] = Raise ZeroDivisionError.
Proof. compute_done. Qed.

Lemma C3_witness :
  @split_text RegexLite.regex [] [e_error; e_open] = Return ([], ∅)
  ∧ @split_text RegexLite.regex (as_file ["ERROR start"; ""; "ERROR again"]) [e_error; e_open]
    = @split_text RegexLite.regex (as_file ["ERROR start"; ""; "ERROR again"]) [e_error]
  ∧ @for_each _ _ (@body RegexLite.regex [e_error; e_open])
      (as_file ["ERROR start"; "  detail1"]) init = Raise (re_error "(")
  ∧ @split_text RegexLite.regex (as_file ["ERROR start"; "  detail1"; "ERROR again"])
      [e_error; e_open] = Raise (re_error "(").
Proof.
  destruct (@C3_compile_error_at_first_use RegexLite.regex [e_error] e_open [])
    as (Hload & Hunreached & Hreached); [compute_done|].
  split; [exact Hload|]. split.
  - apply Hunreached. repeat constructor; exists e_error; compute_done.
  - apply (Hreached (as_file ["ERROR start"]) ("  detail1" ++ NL)%string
             (as_file ["ERROR again"])
             (mkstate [] ["ERROR start"] (Some e_error)
                {[ Expression.id e_error := 1%nat ]})).
    + compute_done.
    + compute_done.
    + compute_done.
Defined.

(** C3 as stated fails: with a source that does not compile in the
    Expression Set, a first line is processed and counted, a file of that
    line alone is segmented without any error, and the error comes only
    with a line that reaches the Expression. *)
Lemma C3_counterexample :
  @re_compile RegexLite.regex (Expression.expression e_open) = None
  ∧ @body RegexLite.regex [e_error; e_open] init ("ERROR start" ++ NL)%string
    = Return (mkstate [] ["ERROR start"] (Some e_error) {[ Expression.id e_error := 1%nat ]})
  ∧ @split_text RegexLite.regex (as_file ["ERROR start"]) [e_error; e_open]
    = Return ([], {[ Expression.id e_error := 1%nat ]})
  ∧ @split_text RegexLite.regex (as_file ["ERROR start"; "  detail1"]) [e_error; e_open]
    = Raise (re_error "(").
Proof. repeat split; compute_done. Qed.


(** The file may lack its last terminator. *)
Example scenario_no_final_terminator :
  @split_text RegexLite.regex
    (as_file ["ERROR start"; "  detail1"; "  detail2"; "WARN: deprecated"; "  detail3"]
     ++ ["ERROR again"])
    (scenario_set "errors" "warnings")
  = @split_text RegexLite.regex (as_file scenario_lines) (scenario_set "errors" "warnings").
Proof. compute_done. Qed.



Lemma C6_witness :
  Forall (paragraph_of (lines_of (as_file scenario_lines)))
    [ (join NL ["ERROR start"; "  detail1"; "  detail2"], false);
      (join NL ["WARN: deprecated"; "  detail3"], true) ].
Proof.
  apply (@C6_paragraph_two_lines RegexLite.regex (as_file scenario_lines)
           (scenario_set "errors" "warnings") _
           {[ Expression.id e_error := 2%nat; Expression.id e_warn := 1%nat ]}).
  compute_done.
Defined.

Lemma C7_witness :
  @body RegexLite.regex [e_warn; e_err; e_error; e_open] init ("ERROR start" ++ NL)%string
  = @body RegexLite.regex [e_warn; e_err] init ("ERROR start" ++ NL)%string.
Proof.
  refine (proj1 (proj2 (@C7_first_match_wins RegexLite.regex
            [e_warn] e_err [e_error; e_open] ("ERROR start" ++ NL)%string init _ _ _))).
  - compute_done.
  - compute_done.
  - compute_done.
Defined.

(** Both [e_err] and [e_error] match the line; the earlier one owns it. *)
Example body_two_matches :
  @boundary_test RegexLite.regex e_err "ERROR start" = Some true
  ∧ @boundary_test RegexLite.regex e_error "ERROR start" = Some true
  ∧ @body RegexLite.regex [e_warn; e_err; e_error; e_open] init ("ERROR start" ++ NL)%string
    = Return (mkstate [] ["ERROR start"] (Some e_err) {[ Expression.id e_err := 1%nat ]}).
Proof. repeat split; compute_done. Qed.

Lemma C8_witness :
  ∃ rep es,
    report tied_counter
      [e_err; e_error; e_warn] None = Return rep
    ∧ row_info <$> table rep
      = expression_info tied_counter <$> es
    ∧ es ≡ₚ [e_err; e_error; e_warn]
    ∧ StronglySorted
        (λ a b, (count_of tied_counter b
                 ≤ count_of tied_counter a)%nat) es
    ∧ ∀ c, List.filter (λ e, count_of tied_counter e =? c)%nat es
           = List.filter (λ e, count_of tied_counter e =? c)%nat
               [e_err; e_error; e_warn].
Proof.
  apply C8_rows_stable_descending. left. compute_done.
Defined.

Lemma C9_witness :
  ∃ rep,
    report tied_counter [e_err; e_error; e_warn] None = Return rep
    ∧ final_expression rep = "(^WARN|^ERR|^ERROR).*".
Proof.
  destruct (C9_final_expression tied_counter [e_err; e_error; e_warn] None)
    as (rep & es & Hrep & Hsd & Hfinal); [left; compute_done|].
  exists rep. split; [exact Hrep|]. rewrite Hfinal.
  rewrite (stable_descending_unique (count_of tied_counter) _ _ _ Hsd
             (sorted_reverse_stable_descending (count_of tied_counter) _)).
  vm_compute. reflexivity.
Defined.

(** [e_err] and [e_error] are tied and keep their configured order. *)
Example report_tied :
  (r ← report tied_counter
         [e_err; e_error; e_warn] None;
   Return (row_info <$> table r, final_expression r))
  = Return ([ ("^WARN", "a warning", 2%nat); ("^ERR", "any ERR", 1%nat);
              ("^ERROR", "an error", 1%nat) ],
            "(^WARN|^ERR|^ERROR).*").
Proof. compute_done. Qed.

Lemma C10_witness :
  @for_each _ _ (@body RegexLite.regex [e_error; e_warn])
     (as_file ["noise 1"; ""; "noise 2"; "noise 3"]) init
  = Return (mkstate [] ["noise 1"; "noise 2"; "noise 3"] None ∅)
  ∧ @split_text RegexLite.regex (as_file ["noise 1"; ""; "noise 2"; "noise 3"])
      [e_error; e_warn] = Return ([], ∅).
Proof.
  apply (@C10_no_match_returns_empty RegexLite.regex).
  compute_done.
Defined.

(** * Further properties *)

(** ** Stripping *)

Lemma rstrip_cons (c a : ascii) (s : string) :
  rstrip c (String a s) =
    match rstrip c s with
    | EmptyString => if Ascii.eqb a c then EmptyString else String a EmptyString
    | r => String a r
    end.
Proof. reflexivity. Qed.

Lemma rstrip_rstrip (c : ascii) (s : string) : rstrip c (rstrip c s) = rstrip c s.
Proof.
  induction s as [|a s IH]; [reflexivity|].
  rewrite rstrip_cons. destruct (rstrip c s) as [|b r] eqn:Hr.
  - destruct (Ascii.eqb a c) eqn:Ha; [reflexivity|].
    rewrite rstrip_cons. simpl. rewrite Ha. reflexivity.
  - rewrite rstrip_cons, IH. reflexivity.
Qed.

Lemma lstrip_no_lead (c : ascii) (s s' : string) : lstrip c s ≠ String c s'.
Proof.
  induction s as [|a s IH]; simpl; [discriminate|].
  destruct (Ascii.eqb_spec a c); [exact IH | congruence].
Qed.

Lemma lstrip_id (c : ascii) (s : string) : (∀ s', s ≠ String c s') → lstrip c s = s.
Proof.
  destruct s as [|a s]; simpl; [reflexivity|]. intros Hs.
  destruct (Ascii.eqb_spec a c) as [->|]; [|reflexivity].
  exfalso. apply (Hs s). reflexivity.
Qed.

Lemma rstrip_no_lead (c : ascii) (s : string) :
  (∀ s', s ≠ String c s') → ∀ s', rstrip c s ≠ String c s'.
Proof.
  destruct s as [|a s]; [simpl; discriminate|]. intros Hs s'.
  assert (Ha : a ≠ c) by (intros ->; apply (Hs s); reflexivity).
  rewrite rstrip_cons. destruct (rstrip c s).
  - destruct (Ascii.eqb_spec a c); [contradiction | congruence].
  - congruence.
Qed.

(** Stripping a stripped line changes nothing. *)
Lemma strip_strip (c : ascii) (s : string) : strip c (strip c s) = strip c s.
Proof.
  unfold strip. rewrite (lstrip_id c (rstrip c (lstrip c s))).
  - apply rstrip_rstrip.
  - apply rstrip_no_lead. intros s'. apply lstrip_no_lead.
Qed.

Lemma lines_of_lines_of (file : list string) : lines_of (lines_of file) = lines_of file.
Proof.
  induction file as [|raw file IH]; [reflexivity|].
  rewrite lines_of_cons. destruct (String.eqb_spec (strip LF raw) "") as [Hb|Hb]; [exact IH|].
  rewrite lines_of_cons, strip_strip.
  destruct (String.eqb_spec (strip LF raw) ""); [contradiction|]. rewrite IH. reflexivity.
Qed.

Section lines_only.
Context `{Regex}.

Lemma for_each_lines_of (regex_data : list Expression.t) (file : list string) (st : state) :
  for_each (body regex_data) file st = for_each (body regex_data) (lines_of file) st.
Proof.
  revert st. induction file as [|raw file IH]; intros st; [reflexivity|].
  rewrite lines_of_cons. simpl.
  destruct (String.eqb_spec (strip LF raw) "") as [Hb|Hb].
  - rewrite body_blank by exact Hb. simpl. apply IH.
  - simpl. rewrite (body_nonblank _ _ (strip LF raw)) by (rewrite strip_strip; exact Hb).
    rewrite strip_strip, body_nonblank by exact Hb.
    destruct (scan regex_data (strip LF raw) st); simpl; [apply IH | reflexivity].
Qed.
End lines_only.

(** X1. [split_text] sees a file only through its non-blank lines, each
    stripped of its terminators: blank lines, and where and whether the
    lines end with a terminator, change neither what it returns nor what
    it raises. *)
Theorem X1_split_text_sees_lines_only `{Regex} (file : list string)
    (regex_data : list Expression.t) :
  split_text file regex_data = split_text (lines_of file) regex_data.
Proof. unfold split_text. rewrite for_each_lines_of. reflexivity. Qed.

(** ** The total of the counter *)

Lemma sum_values_insert (counter : MatchCounter) (k : string) (v : nat) :
  counter !! k = None → sum_values (<[k:=v]> counter) = (v + sum_values counter)%nat.
Proof.
  intros Hk. unfold sum_values. apply map_fold_insert_L; [|exact Hk].
  intros. lia.
Qed.

Lemma sum_values_delete (counter : MatchCounter) (k : string) :
  sum_values counter = (counter !!! k + sum_values (delete k counter))%nat.
Proof.
  rewrite lookup_total_alt. destruct (counter !! k) as [v|] eqn:Hk; simpl.
  - rewrite <- (insert_delete_id counter k v Hk) at 1.
    apply sum_values_insert, lookup_delete_eq.
  - rewrite delete_id by exact Hk. reflexivity.
Qed.

(** An increment of one slot adds one to the total. *)
Lemma sum_values_incr (counter : MatchCounter) (k : string) :
  sum_values (<[k := S (counter !!! k)]> counter) = S (sum_values counter).
Proof.
  rewrite <- insert_delete_eq, sum_values_insert by apply lookup_delete_eq.
  rewrite (sum_values_delete counter k). reflexivity.
Qed.

Lemma sum_excluded_le (res : list (string * bool)) :
  (sum_list ((λ i : string * bool, if i.2 then 1 else 0) <$> res) ≤ List.length res)%nat.
Proof.
  induction res as [|[text excluded] res IH]; [simpl; lia|].
  rewrite fmap_cons. change (sum_list (?x :: ?l)) with (x + sum_list l)%nat.
  simpl. destruct excluded; lia.
Qed.

Section totals.
Context `{Regex}.

Lemma boundaries_app (regex_data : list Expression.t) (lines1 lines2 : list string) :
  boundaries regex_data (lines1 ++ lines2)
  = (boundaries regex_data lines1 + boundaries regex_data lines2)%nat.
Proof. unfold boundaries. rewrite List.filter_app, length_app. reflexivity. Qed.

(** [close_out] adds at most one paragraph, and none without an owner. *)
Lemma close_out_length (st : state) (res' : list (string * bool)) :
  close_out st = Return res' →
  (List.length res' ≤ List.length (result st)
                      + (match current_regexp st with Some _ => 1 | None => 0 end))%nat.
Proof.
  unfold close_out, push.
  destruct (1 <? List.length (current_group st))%nat; [|intros [= <-]; lia].
  destruct (List.length (current_group st) <? 2)%nat; [intros [= <-]; lia|].
  destruct (current_regexp st) as [e|]; [|discriminate].
  intros Hb. apply bind_Return_inv in Hb as (excluded & _ & [= <-]).
  rewrite length_app. simpl. lia.
Qed.

End totals.

Section totals_loop.
Context `{Regex}.

Lemma total_inv_scan (regex_data : list Expression.t) (line : string)
    (seen : list string) (st st' : state) :
  total_inv regex_data seen st →
  scan regex_data line st = Return st' →
  total_inv regex_data (seen ++ [line]) st'.
Proof.
  intros [Hsum Hlen]. rewrite scan_first_match.
  intros Hb. apply bind_Return_inv in Hb as (w & Hfirst & Hw).
  unfold total_inv. rewrite boundaries_app. unfold boundaries at 2, is_boundary.
  simpl. rewrite Hfirst.
  destruct w as [e|].
  - apply bind_Return_inv in Hw as (res' & Hclose & [= <-]). simpl.
    apply close_out_length in Hclose. rewrite sum_values_incr. split; lia.
  - injection Hw as <-. simpl. split; lia.
Qed.

Lemma total_inv_for_each (regex_data : list Expression.t) (file : list string)
    (seen : list string) (st st' : state) :
  total_inv regex_data seen st →
  for_each (body regex_data) file st = Return st' →
  total_inv regex_data (seen ++ lines_of file) st'.
Proof.
  revert seen st. induction file as [|raw file IH]; intros seen st Hinv.
  - simpl. intros [= <-]. rewrite app_nil_r. exact Hinv.
  - simpl. intros Hb. apply bind_Return_inv in Hb as (st1 & Hbody & Hrest).
    rewrite lines_of_cons.
    destruct (String.eqb_spec (strip LF raw) "") as [Hblank|Hblank].
    + rewrite body_blank in Hbody by exact Hblank. injection Hbody as <-.
      eapply IH; eassumption.
    + rewrite body_nonblank in Hbody by exact Hblank.
      change (strip LF raw :: lines_of file) with ([strip LF raw] ++ lines_of file).
      rewrite app_assoc. eapply IH; [|exact Hrest].
      eapply total_inv_scan; eassumption.
Qed.

(** What [split_text] returns: the total of the counter is the number of
    boundary lines, and there are no more paragraphs than that. *)
Lemma split_text_total (file : list string) (regex_data : list Expression.t)
    (res : list (string * bool)) (counts : MatchCounter) :
  split_text file regex_data = Return (res, counts) →
  sum_values counts = boundaries regex_data (lines_of file)
  ∧ (List.length res ≤ sum_values counts)%nat.
Proof.
  unfold split_text. intros Hb.
  apply bind_Return_inv in Hb as (st & Hloop & Hb).
  apply bind_Return_inv in Hb as (res' & Hfinal & [= <- <-]).
  destruct (total_inv_for_each regex_data file [] init st) as [Hsum Hlen];
    [split; [reflexivity | simpl; lia] | exact Hloop |].
  split; [exact Hsum|].
  destruct (current_regexp st) as [e|]; simpl in *.
  - destruct (1 <? List.length (current_group st))%nat; simpl in Hfinal.
    + unfold push in Hfinal.
      destruct (List.length (current_group st) <? 2)%nat; [injection Hfinal as <-; lia|].
      apply bind_Return_inv in Hfinal as (excluded & _ & [= <-]).
      rewrite length_app. simpl. lia.
    + injection Hfinal as <-. lia.
  - rewrite andb_false_r in Hfinal. injection Hfinal as <-. lia.
Qed.
End totals_loop.

(** X2. For every run that returns, the total of the counter (the
    [total] of the report) is the number of non-blank lines that some
    Expression won, whether their groups gave a paragraph or not. *)
Theorem X2_total_counts_boundary_lines `{Regex} (file : list string)
    (regex_data : list Expression.t) (res : list (string * bool)) (counts : MatchCounter) :
  split_text file regex_data = Return (res, counts) →
  sum_values counts = boundaries regex_data (lines_of file).
Proof. intros Hrun. apply (split_text_total _ _ _ _ Hrun). Qed.

(** X3. The summary line of the report, as [main] calls it on what
    [split_text] returns: it is printed only when there is a paragraph,
    and then of its three numbers, the paragraphs excluded are no more
    than the paragraphs, which are no more than the total of matches. *)
Theorem X3_summary_bounds `{Regex} (file : list string) (regex_data : list Expression.t)
    (res : list (string * bool)) (counts : MatchCounter) (rep : report_data) :
  split_text file regex_data = Return (res, counts) →
  report counts regex_data (Some res) = Return rep →
  match summary rep with
  | None => res = []
  | Some (n, total, k) =>
      n = List.length res ∧ total = sum_values counts
      ∧ (k ≤ n)%nat ∧ (0 < n)%nat ∧ (n ≤ total)%nat
  end.
Proof.
  intros Hrun Hrep. destruct (split_text_total _ _ _ _ Hrun) as [_ Hlen].
  unfold report in Hrep. apply bind_Return_inv in Hrep as (acc & _ & [= <-]). simpl.
  destruct res as [|par res]; [reflexivity|].
  split; [reflexivity|]. split; [reflexivity|].
  split; [apply sum_excluded_le|]. split; [simpl; lia | exact Hlen].
Qed.

(** ** The known patterns *)

Section known_patterns.
Context `{Regex}.

Lemma compile_all_known (ks : list string) :
  Forall (λ k, is_Some (re_compile k)) ks →
  ∃ ps, Forall2 (λ k p, re_compile k = Some p) ks ps.
Proof.
  induction 1 as [|k ks [p Hp] _ [ps IH]]; [exists []; constructor|].
  exists (p :: ps). constructor; assumption.
Qed.

Lemma existsb_known (ks : list string) (ps : list Pattern) (paragraph : string) :
  Forall2 (λ k p, re_compile k = Some p) ks ps →
  existsb (λ p, re_match p paragraph) ps = true
  ↔ Exists (λ k, ∃ p, re_compile k = Some p ∧ re_match p paragraph = true) ks.
Proof.
  induction 1 as [|k p ks ps Hk _ IH]; simpl.
  - split; [discriminate | intros Hex; inversion Hex].
  - rewrite orb_true_iff, Exists_cons, IH. split.
    + intros [Hm|Hex]; [left; exists p; auto | right; exact Hex].
    + intros [(p' & Hp' & Hm)|Hex]; [left; congruence | right; exact Hex].
Qed.

Lemma compile_known_None (k : string) :
  re_compile k = None → Expression.compile_known k = Raise (re_error k).
Proof. unfold Expression.compile_known. intros ->. reflexivity. Qed.

Lemma mapM_compile_known_raise (ks1 : list string) (k : string) (ks2 : list string) :
  Forall (λ k', is_Some (re_compile k')) ks1 →
  re_compile k = None →
  mapM Expression.compile_known (ks1 ++ k :: ks2) = Raise (re_error k).
Proof.
  intros Hks1 Hk. induction Hks1 as [|k1 ks1 [p Hp] _ IH]; simpl.
  - rewrite (compile_known_None _ Hk). reflexivity.
  - rewrite (compile_known_Some _ _ Hp). simpl. rewrite IH. reflexivity.
Qed.

Lemma should_exclude_raise (e : Expression.t) (ks1 : list string) (k : string)
    (ks2 : list string) (paragraph : string) :
  Expression.known e = ks1 ++ k :: ks2 →
  Forall (λ k', is_Some (re_compile k')) ks1 →
  re_compile k = None →
  Expression.should_exclude e paragraph = Raise (re_error k).
Proof.
  intros He Hks1 Hk. unfold Expression.should_exclude.
  rewrite He, mapM_compile_known_raise by assumption. reflexivity.
Qed.
End known_patterns.

(** X4. [should_exclude] when the known sources all compile: it returns,
    and says true exactly when some known pattern matches at the start of
    the paragraph; without known source it says false. *)
Theorem X4_should_exclude_some_known_matches `{Regex} (e : Expression.t) (paragraph : string) :
  Forall (λ k, is_Some (re_compile k)) (Expression.known e) →
  ∃ b, Expression.should_exclude e paragraph = Return b
       ∧ (b = true ↔
          Exists (λ k, ∃ p, re_compile k = Some p ∧ re_match p paragraph = true)
            (Expression.known e))
       ∧ (Expression.known e = [] → b = false).
Proof.
  intros Hall. destruct (compile_all_known _ Hall) as [ps Hps].
  exists (existsb (λ p, re_match p paragraph) ps).
  split; [apply should_exclude_known, Hps|].
  split; [apply existsb_known, Hps|].
  intros Hnil. rewrite Hnil in Hps. inversion Hps. reflexivity.
Qed.

(** X5. The known sources are all compiled before any is tried: with a
    known source that does not compile (the ones before it compiling),
    [should_exclude] raises its error on every paragraph, one that an
    earlier known pattern matches included. *)
Theorem X5_should_exclude_compiles_all_first `{Regex} (e : Expression.t)
    (ks1 : list string) (k : string) (ks2 : list string) (paragraph : string) :
  Expression.known e = ks1 ++ k :: ks2 →
  Forall (λ k', is_Some (re_compile k')) ks1 →
  re_compile k = None →
  Expression.should_exclude e paragraph = Raise (re_error k).
Proof.
  intros He Hks1 Hk. apply (should_exclude_raise e ks1 k ks2); assumption.
Qed.

(** ** A source given twice *)

Lemma for_each_ext {A St : Type} (f g : St → A → exc St) (l : list A) (st : St) :
  (∀ st' x, f st' x = g st' x) → for_each f l st = for_each g l st.
Proof.
  intros Hfg. revert st. induction l as [|x l IH]; intros st; simpl; [reflexivity|].
  rewrite Hfg. destruct (g st x); simpl; [apply IH | reflexivity].
Qed.

Section repeated_source.
Context `{Regex}.

Lemma first_match_drop_failed (p : Pattern) (mid : list Expression.t) (e2 : Expression.t)
    (post : list Expression.t) (line : string) :
  re_compile (Expression.expression e2) = Some p →
  re_match p line = false →
  first_match (mid ++ e2 :: post) line = first_match (mid ++ post) line.
Proof.
  intros Hp Hm. induction mid as [|e mid IH]; simpl.
  - unfold Expression.pattern. rewrite Hp. simpl. rewrite Hm. reflexivity.
  - destruct (Expression.pattern e) as [q|x]; simpl; [|reflexivity].
    destruct (re_match q line); [reflexivity | exact IH].
Qed.

Lemma first_match_drop_repeat (pre : list Expression.t) (e1 : Expression.t)
    (mid : list Expression.t) (e2 : Expression.t) (post : list Expression.t) (line : string) :
  Expression.expression e2 = Expression.expression e1 →
  first_match (pre ++ e1 :: mid ++ e2 :: post) line
  = first_match (pre ++ e1 :: mid ++ post) line.
Proof.
  intros He. induction pre as [|e pre IH]; simpl.
  - destruct (Expression.pattern e1) as [p|x] eqn:Hp; simpl; [|reflexivity].
    destruct (re_match p line) eqn:Hm; [reflexivity|].
    apply (first_match_drop_failed p); [|exact Hm].
    rewrite He. unfold Expression.pattern in Hp.
    destruct (re_compile (Expression.expression e1)); congruence.
  - destruct (Expression.pattern e) as [q|x]; simpl; [|reflexivity].
    destruct (re_match q line); [reflexivity | exact IH].
Qed.
End repeated_source.

(** X6. An Expression whose source repeats the source of an earlier one
    never wins a line: taking it out of the Expression Set changes
    nothing of what [split_text] returns or raises. *)
Theorem X6_repeated_source_never_wins `{Regex} (file : list string)
    (pre : list Expression.t) (e1 : Expression.t) (mid : list Expression.t)
    (e2 : Expression.t) (post : list Expression.t) :
  Expression.expression e2 = Expression.expression e1 →
  split_text file (pre ++ e1 :: mid ++ e2 :: post)
  = split_text file (pre ++ e1 :: mid ++ post).
Proof.
  intros He. unfold split_text.
  rewrite (for_each_ext (body (pre ++ e1 :: mid ++ e2 :: post))
             (body (pre ++ e1 :: mid ++ post))); [reflexivity|].
  intros st raw. unfold body.
  destruct (String.eqb (strip LF raw) ""); [reflexivity|].
  rewrite !scan_first_match, first_match_drop_repeat by exact He. reflexivity.
Qed.

(** ** The segmentation *)

Section segmentation_facts.
Context `{Regex}.

Lemma close_out_owner (st : state) (e : Expression.t) :
  current_regexp st = Some e →
  close_out st = (emit (e, current_group st) ≫= λ rs, Return (result st ++ rs)).
Proof.
  intros Ho. unfold close_out, emit, push. rewrite Ho. simpl.
  destruct (Nat.ltb_spec 1 (List.length (current_group st))),
           (Nat.ltb_spec (List.length (current_group st)) 2); try lia; simpl.
  - destruct (Expression.should_exclude e (join NL (current_group st))); reflexivity.
  - rewrite app_nil_r. reflexivity.
Qed.

Lemma finish_owner (st : state) (e : Expression.t) :
  current_regexp st = Some e →
  finish st = (emit (e, current_group st) ≫= λ rs, Return (result st ++ rs, match_count st)).
Proof.
  intros Ho. unfold finish, emit, push. rewrite Ho. simpl.
  destruct (Nat.ltb_spec 1 (List.length (current_group st))),
           (Nat.ltb_spec (List.length (current_group st)) 2); try lia; simpl.
  - destruct (Expression.should_exclude e (join NL (current_group st))); reflexivity.
  - rewrite app_nil_r. reflexivity.
Qed.

Lemma finish_unowned (st : state) :
  current_regexp st = None → finish st = Return (result st, match_count st).
Proof. intros Ho. unfold finish. rewrite Ho, andb_false_r. reflexivity. Qed.

Lemma mapM_cons_Return {A B : Type} (f : A → exc B) (x : A) (l : list A) (ys : list B) :
  mapM f (x :: l) = Return ys →
  ∃ y ys', f x = Return y ∧ mapM f l = Return ys' ∧ ys = y :: ys'.
Proof.
  simpl. intros Hb. apply bind_Return_inv in Hb as (y & Hy & Hb).
  apply bind_Return_inv in Hb as (ys' & Hys' & [= <-]). eauto.
Qed.

(** The loop and the end of [split_text], from any state, when the scan
    of every line returns. *)
Lemma run_segmentation_from (regex_data : list Expression.t) (file : list string)
    (ws : list (option Expression.t)) (st : state) :
  mapM (first_match regex_data) (lines_of file) = Return ws →
  (for_each (body regex_data) file st ≫= finish)
  = segmentation_from st (group_lines (zip (lines_of file) ws)).
Proof.
  revert ws st. induction file as [|raw file IH]; intros ws st Hws.
  - injection Hws as <-. destruct st as [r g o c]. unfold segmentation_from. simpl.
    rewrite app_nil_r. reflexivity.
  - rewrite lines_of_cons in Hws |- *.
    destruct (String.eqb_spec (strip LF raw) "") as [Hb|Hb].
    + simpl. rewrite body_blank by exact Hb. simpl. apply IH, Hws.
    + apply mapM_cons_Return in Hws as (w & ws' & Hw & Hws' & ->).
      simpl for_each. rewrite body_nonblank, scan_first_match, Hw by exact Hb.
      specialize (IH ws'). destruct st as [r g o c].
      change (zip (strip LF raw :: lines_of file) (w :: ws'))
        with ((strip LF raw, w) :: zip (lines_of file) ws').
      simpl group_lines.
      destruct (group_lines (zip (lines_of file) ws')) as [lead gs] eqn:Hlg.
      destruct w as [e|]; simpl.
      * unfold segmentation_from at 1. simpl. rewrite app_nil_r.
        destruct (close_out {| result := r; current_group := g;
                               current_regexp := o; match_count := c |}) as [r1|x];
          simpl; [|reflexivity].
        rewrite IH by exact Hws'. unfold segmentation_from. simpl.
        destruct gs as [|g' gs].
        -- rewrite (finish_owner _ e) by reflexivity. simpl.
           destruct (emit (e, strip LF raw :: lead)) as [rs|x]; simpl; [|reflexivity].
           rewrite app_nil_r. reflexivity.
        -- rewrite (close_out_owner _ e) by reflexivity. simpl.
           destruct (emit (e, strip LF raw :: lead)) as [rs|x]; simpl; [|reflexivity].
           destruct (emit g') as [rs'|x]; simpl; [|reflexivity].
           destruct (mapM emit gs) as [rss|x]; simpl; [|reflexivity].
           rewrite <- app_assoc. reflexivity.
      * rewrite IH by exact Hws'. unfold segmentation_from. simpl.
        rewrite <- app_assoc. reflexivity.
Qed.

(** When [split_text] returns, the scan of every line has returned. *)
Lemma for_each_classified (regex_data : list Expression.t) (file : list string)
    (st st' : state) :
  for_each (body regex_data) file st = Return st' →
  ∃ ws, mapM (first_match regex_data) (lines_of file) = Return ws.
Proof.
  revert st. induction file as [|raw file IH]; intros st; [exists []; reflexivity|].
  simpl. intros Hb. apply bind_Return_inv in Hb as (st1 & Hbody & Hrest).
  rewrite lines_of_cons. destruct (IH _ Hrest) as [ws Hws].
  destruct (String.eqb_spec (strip LF raw) "") as [Hblank|Hblank]; [eauto|].
  rewrite body_nonblank, scan_first_match in Hbody by exact Hblank.
  apply bind_Return_inv in Hbody as (w & Hw & _).
  exists (w :: ws). simpl. rewrite Hw. simpl. rewrite Hws. reflexivity.
Qed.
End segmentation_facts.

(** X7. [split_text] as a segmentation. When the scan of every non-blank
    line returns (it gives the Expression that wins the line, if any),
    [split_text] is the cut of the lines at the boundary lines: without a
    boundary line it returns nothing and an empty counter; with two lines
    or more before the first boundary line it raises [AttributeError];
    else it returns, in order, one paragraph for each group of two lines
    or more (a boundary line and the lines up to the next one), excluded
    as its owner says, and a counter with one count per boundary line;
    it raises what [should_exclude] raises for the first such group. *)
Theorem X7_split_text_is_segmentation `{Regex} (file : list string)
    (regex_data : list Expression.t) (ws : list (option Expression.t)) :
  mapM (first_match regex_data) (lines_of file) = Return ws →
  split_text file regex_data = segmentation (zip (lines_of file) ws).
Proof.
  intros Hws.
  change (split_text file regex_data)
    with (for_each (body regex_data) file init ≫= finish).
  rewrite (run_segmentation_from _ _ _ _ Hws).
  unfold segmentation_from, segmentation. simpl.
  destruct (group_lines (zip (lines_of file) ws)) as [lead gs]. simpl.
  destruct gs as [|g gs]; [apply finish_unowned; reflexivity|].
  unfold close_out, push. simpl.
  destruct (Nat.ltb_spec 1 (List.length lead)), (Nat.ltb_spec (List.length lead) 2);
    try lia; reflexivity.
Qed.

(** ** The owner of a paragraph *)

Section owners.
Context `{Regex}.

Lemma push_Return_owned (owner : option Expression.t) (lines : list string)
    (res res' : list (string * bool)) :
  push owner lines res = Return res' →
  res' = res ∨
  ((2 ≤ List.length lines)%nat ∧
   ∃ e b, owner = Some e
          ∧ Expression.should_exclude e (join NL lines) = Return b
          ∧ res' = res ++ [(join NL lines, b)]).
Proof.
  unfold push. destruct (Nat.ltb_spec (List.length lines) 2) as [Hlt|Hge].
  - intros [= <-]. left. reflexivity.
  - destruct owner as [e|]; [|discriminate].
    intros Hb. apply bind_Return_inv in Hb as (b & Hex & [= <-]).
    right. split; [exact Hge|]. exists e, b. auto.
Qed.

Lemma owner_inv_push (regex_data : list Expression.t) (st : state)
    (res' : list (string * bool)) :
  owner_inv regex_data st →
  push (current_regexp st) (current_group st) (result st) = Return res' →
  Forall (owned_paragraph regex_data) res'.
Proof.
  intros [Hown Hres] Hpush.
  apply push_Return_owned in Hpush as [->|(Hlen & e & b & Ho & Hex & ->)]; [exact Hres|].
  apply Forall_app. split; [exact Hres|]. constructor; [|constructor].
  rewrite Ho in Hown. destruct Hown as (first & rest & Hg & Hfirst & Hrest).
  rewrite Hg in Hlen, Hex |- *.
  exists e, first, rest. repeat split; try assumption.
  intros ->. simpl in Hlen. lia.
Qed.

Lemma owner_inv_scan (regex_data : list Expression.t) (line : string) (st st' : state) :
  owner_inv regex_data st →
  scan regex_data line st = Return st' →
  owner_inv regex_data st'.
Proof.
  intros Hinv. rewrite scan_first_match.
  intros Hb. apply bind_Return_inv in Hb as (w & Hfirst & Hw).
  destruct w as [e|].
  - apply bind_Return_inv in Hw as (res' & Hclose & [= <-]).
    split; simpl.
    + exists line, []. repeat split; [exact Hfirst | constructor].
    + unfold close_out in Hclose.
      destruct (1 <? List.length (current_group st))%nat.
      * eapply owner_inv_push; eassumption.
      * injection Hclose as <-. apply Hinv.
  - injection Hw as <-. destruct Hinv as [Hown Hres]. split; simpl; [|exact Hres].
    destruct (current_regexp st) as [e|]; [|exact I].
    destruct Hown as (first & rest & -> & Hf & Hrest).
    exists first, (rest ++ [line]). repeat split; [exact Hf|].
    apply Forall_app. split; [exact Hrest|]. constructor; [exact Hfirst | constructor].
Qed.

Lemma owner_inv_for_each (regex_data : list Expression.t) (file : list string)
    (st st' : state) :
  owner_inv regex_data st →
  for_each (body regex_data) file st = Return st' →
  owner_inv regex_data st'.
Proof.
  revert st. induction file as [|raw file IH]; intros st Hinv.
  - simpl. intros [= <-]. exact Hinv.
  - simpl. intros Hb. apply bind_Return_inv in Hb as (st1 & Hbody & Hrest).
    eapply IH; [|exact Hrest]. unfold body in Hbody.
    destruct (String.eqb (strip LF raw) "").
    + injection Hbody as <-. exact Hinv.
    + eapply owner_inv_scan; eassumption.
Qed.
End owners.

(** X8. Every paragraph [split_text] returns starts with a boundary line
    and goes on with one line or more that no Expression wins, and its
    flag is what [should_exclude] of the winner of its first line says of
    its text. *)
Theorem X8_paragraph_has_owner `{Regex} (file : list string)
    (regex_data : list Expression.t) (res : list (string * bool)) (counts : MatchCounter) :
  split_text file regex_data = Return (res, counts) →
  Forall (owned_paragraph regex_data) res.
Proof.
  unfold split_text. intros Hb.
  apply bind_Return_inv in Hb as (st & Hloop & Hb).
  apply bind_Return_inv in Hb as (res' & Hfinal & [= <- _]).
  assert (Hinv : owner_inv regex_data st).
  { apply (owner_inv_for_each regex_data file init); [|exact Hloop].
    split; [exact I | constructor]. }
  destruct ((1 <? List.length (current_group st))%nat
            && bool_decide (is_Some (current_regexp st))).
  - eapply owner_inv_push; eassumption.
  - injection Hfinal as <-. apply Hinv.
Qed.

(** ** A known source that does not compile *)

(** X9. A known source that does not compile is reported exactly when
    a group of two lines or more of its Expression is closed out. Let the
    lines of [before] be processed without error and leave a group open
    with owner [e], the first known source of [e] that does not compile
    being [k]. If the group has two lines or more, the error of [k] is
    raised at the end of the input, and as well at the next boundary
    line. If it has fewer, nothing is raised for [k]: at the end of the
    input [split_text] returns, and at the next boundary line the loop
    goes on with the new owner. *)
Theorem X9_known_error_at_close_out `{Regex} (before : list string) (raw : string)
    (rest : list string) (regex_data : list Expression.t) (st : state)
    (e : Expression.t) (ks1 : list string) (k : string) (ks2 : list string) :
  for_each (body regex_data) before init = Return st →
  current_regexp st = Some e →
  Expression.known e = ks1 ++ k :: ks2 →
  Forall (λ k', is_Some (re_compile k')) ks1 →
  re_compile k = None →
  ((2 ≤ List.length (current_group st))%nat →
   split_text before regex_data = Raise (re_error k)
   ∧ (strip LF raw ≠ "" →
      is_boundary regex_data (strip LF raw) = true →
      for_each (body regex_data) (before ++ [raw]) init = Raise (re_error k)
      ∧ split_text (before ++ raw :: rest) regex_data = Raise (re_error k)))
  ∧ ((List.length (current_group st) < 2)%nat →
     split_text before regex_data = Return (result st, match_count st)
     ∧ (∀ e', strip LF raw ≠ "" →
         first_match regex_data (strip LF raw) = Return (Some e') →
         for_each (body regex_data) (before ++ [raw]) init
         = Return {| result := result st;
                     current_group := [strip LF raw];
                     current_regexp := Some e';
                     match_count :=
                       <[Expression.id e' := S (match_count st !!! Expression.id e')]>
                         (match_count st) |})).
Proof.
  intros Hloop Ho He Hks1 Hk. split.
  - intros Hlen.
    assert (Hpush : ∀ res, push (Some e) (current_group st) res = Raise (re_error k)).
    { intros res. unfold push.
      destruct (Nat.ltb_spec (List.length (current_group st)) 2); [lia|].
      rewrite (should_exclude_raise e ks1 k ks2) by assumption. reflexivity. }
    assert (H1 : (1 <? List.length (current_group st))%nat = true)
      by (apply Nat.ltb_lt; lia).
    split.
    + unfold split_text. rewrite Hloop. simpl. rewrite Ho, H1. simpl.
      rewrite Hpush. reflexivity.
    + intros Hraw Hbd. unfold is_boundary in Hbd.
      destruct (first_match regex_data (strip LF raw)) as [[e'|]|x] eqn:Hfirst;
        try discriminate.
      assert (Hstep : body regex_data st raw = Raise (re_error k)).
      { rewrite body_nonblank, scan_first_match, Hfirst by exact Hraw. simpl.
        unfold close_out. rewrite Ho, H1, Hpush. reflexivity. }
      split.
      * rewrite for_each_app, Hloop. simpl. rewrite Hstep. reflexivity.
      * unfold split_text. rewrite for_each_app, Hloop. simpl.
        rewrite Hstep. reflexivity.
  - intros Hlen.
    assert (H1 : (1 <? List.length (current_group st))%nat = false)
      by (apply Nat.ltb_ge; lia).
    split.
    + unfold split_text. rewrite Hloop. simpl. rewrite H1. reflexivity.
    + intros e' Hraw Hfirst. rewrite for_each_app, Hloop. simpl.
      rewrite body_nonblank, scan_first_match, Hfirst by exact Hraw. simpl.
      unfold close_out. rewrite H1. reflexivity.
Qed.

(** ** The table, from the lines of the file *)

Section table_of_wins.
Context `{Regex}.

Lemma first_match_In (regex_data : list Expression.t) (line : string) (e : Expression.t) :
  first_match regex_data line = Return (Some e) → e ∈ regex_data.
Proof.
  induction regex_data as [|e0 rd IH]; simpl; [discriminate|].
  destruct (Expression.pattern e0) as [p|x]; simpl; [|discriminate].
  destruct (re_match p line).
  - intros [= ->]. left.
  - intros Hrest. right. apply IH, Hrest.
Qed.

(** A key that won a line is the id of a configured Expression. *)
Lemma wins_pos_In (regex_data : list Expression.t) (k : string) (lines : list string) :
  (0 < wins regex_data k lines)%nat → k ∈ Expression.id <$> regex_data.
Proof.
  unfold wins. intros Hpos.
  destruct (List.filter (won_by regex_data k) lines) as [|l ls] eqn:Hf; [simpl in Hpos; lia|].
  assert (Hin : List.In l (List.filter (won_by regex_data k) lines))
    by (rewrite Hf; left; reflexivity).
  apply List.filter_In in Hin as [_ Hwon]. unfold won_by in Hwon.
  destruct (first_match regex_data l) as [[e|]|x] eqn:Hfirst; try discriminate.
  apply String.eqb_eq in Hwon as <-.
  apply list_elem_of_fmap. exists e. split; [reflexivity|].
  eapply first_match_In, Hfirst.
Qed.

Lemma split_text_counts (file : list string) (regex_data : list Expression.t)
    (res : list (string * bool)) (counts : MatchCounter) :
  split_text file regex_data = Return (res, counts) →
  ∀ k, counts !! k = entry (wins regex_data k (lines_of file)).
Proof.
  unfold split_text. intros Hrun.
  apply bind_Return_inv in Hrun as (st & Hloop & Hend).
  apply bind_Return_inv in Hend as (res' & _ & [= _ <-]).
  apply (counts_for_each regex_data file [] init st); [|exact Hloop].
  intros k. unfold wins. simpl. apply lookup_empty.
Qed.
End table_of_wins.

Lemma sorted_reverse_ext {A : Type} (key1 key2 : A → nat) (l : list A) :
  (∀ x, key1 x = key2 x) → sorted_reverse key1 l = sorted_reverse key2 l.
Proof.
  intros Hkey. induction l as [|x l IH]; simpl; [reflexivity|].
  rewrite IH. generalize (sorted_reverse key2 l). intros s.
  induction s as [|y s IHs]; simpl; [reflexivity|].
  rewrite !Hkey, IHs. reflexivity.
Qed.

Lemma report_rows_inv (counter : MatchCounter) (total : nat)
    (l : list Expression.t) (acc acc' : list row * list string) :
  for_each (report_row counter total) l acc = Return acc' →
  row_info <$> acc'.1 = (row_info <$> acc.1) ++ (expression_info counter <$> l).
Proof.
  revert acc. induction l as [|e l IH]; intros acc; simpl.
  - intros [= <-]. rewrite app_nil_r. reflexivity.
  - intros Hrun. apply bind_Return_inv in Hrun as (acc1 & Hrow & Hrest).
    unfold report_row in Hrow. apply bind_Return_inv in Hrow as (q & _ & [= <-]).
    rewrite (IH _ Hrest). simpl. rewrite fmap_app, <- app_assoc. reflexivity.
Qed.

Lemma report_table (counter : MatchCounter) (expressions : list Expression.t)
    (result : option (list (string * bool))) (rep : report_data) :
  report counter expressions result = Return rep →
  row_info <$> table rep =
    expression_info counter <$> sorted_reverse (count_of counter) expressions.
Proof.
  unfold report. intros Hrep.
  apply bind_Return_inv in Hrep as (acc & Hrows & [= <-]). simpl.
  apply report_rows_inv in Hrows. exact Hrows.
Qed.

(** X10. The table of the report that [main] prints, read off the file:
    its rows are those of a permutation of the Expressions that is
    descending by the number of lines won under their id and keeps, for
    each number, the configured order; each row shows the source, the
    description and that number as count. *)
Theorem X10_table_shows_wins `{Regex} (file : list string) (regex_data : list Expression.t)
    (res : list (string * bool)) (counts : MatchCounter) (rep : report_data) :
  split_text file regex_data = Return (res, counts) →
  report counts regex_data (Some res) = Return rep →
  ∃ es,
    row_info <$> table rep = wins_info regex_data (lines_of file) <$> es
    ∧ es ≡ₚ regex_data
    ∧ StronglySorted
        (λ a b, (wins regex_data (Expression.id b) (lines_of file)
                 ≤ wins regex_data (Expression.id a) (lines_of file))%nat) es
    ∧ ∀ c,
        List.filter (λ e, wins regex_data (Expression.id e) (lines_of file) =? c)%nat es
        = List.filter (λ e, wins regex_data (Expression.id e) (lines_of file) =? c)%nat
            regex_data.
Proof.
  intros Hrun Hrep.
  assert (Hcount : ∀ e, count_of counts e
                        = wins regex_data (Expression.id e) (lines_of file)).
  { intros e. apply lookup_total_entry, (split_text_counts _ _ _ _ Hrun). }
  exists (sorted_reverse (count_of counts) regex_data). split.
  - rewrite (report_table _ _ _ _ Hrep).
    apply list_fmap_ext. intros i e _. unfold expression_info, wins_info.
    rewrite Hcount. reflexivity.
  - rewrite (sorted_reverse_ext _ _ _ Hcount).
    apply (sorted_reverse_stable_descending
             (λ e, wins regex_data (Expression.id e) (lines_of file))).
Qed.

(** ** The counts of the rows and the total *)

Lemma sum_counts_ge (counter : MatchCounter) (l : list Expression.t) :
  (∀ k, is_Some (counter !! k) → k ∈ Expression.id <$> l) →
  (sum_values counter ≤ sum_list (count_of counter <$> l))%nat.
Proof.
  revert counter. induction l as [|e l IH]; intros counter Hdom.
  - assert (counter = ∅) as ->.
    { apply map_eq. intros k. rewrite lookup_empty.
      destruct (counter !! k) eqn:Hk; [|reflexivity].
      specialize (Hdom k (mk_is_Some _ _ Hk)). inversion Hdom. }
    unfold sum_values. rewrite map_fold_empty. simpl. lia.
  - rewrite fmap_cons. change (sum_list (?x :: ?s)) with (x + sum_list s)%nat.
    rewrite (sum_values_delete counter (Expression.id e)). unfold count_of at 1.
    apply Nat.add_le_mono_l.
    transitivity (sum_list (count_of (delete (Expression.id e) counter) <$> l)).
    + apply IH. intros k [v Hk].
      apply lookup_delete_Some in Hk as [Hne Hk].
      specialize (Hdom k (mk_is_Some _ _ Hk)). rewrite fmap_cons in Hdom.
      apply elem_of_cons in Hdom as [Heq|Hin]; [congruence | exact Hin].
    + clear. induction l as [|e' l IH]; simpl; [lia|].
      apply Nat.add_le_mono; [|exact IH]. unfold count_of.
      rewrite !lookup_total_alt.
      destruct (decide (Expression.id e = Expression.id e')) as [Heq|Hne].
      * rewrite Heq, lookup_delete_eq. simpl. lia.
      * rewrite lookup_delete_ne by exact Hne. lia.
Qed.

Lemma sum_counts_NoDup (counter : MatchCounter) (l : list Expression.t) :
  NoDup (Expression.id <$> l) →
  (∀ k, is_Some (counter !! k) → k ∈ Expression.id <$> l) →
  sum_list (count_of counter <$> l) = sum_values counter.
Proof.
  revert counter. induction l as [|e l IH]; intros counter Hnd Hdom.
  - pose proof (sum_counts_ge counter [] Hdom) as Hle. simpl in *. lia.
  - rewrite fmap_cons in Hnd. apply NoDup_cons in Hnd as [Hnotin Hnd].
    rewrite fmap_cons. change (sum_list (?x :: ?s)) with (x + sum_list s)%nat.
    rewrite (sum_values_delete counter (Expression.id e)). unfold count_of at 1.
    f_equal.
    rewrite <- (IH (delete (Expression.id e) counter) Hnd).
    + f_equal. apply list_fmap_ext. intros i e' He'. unfold count_of.
      rewrite !lookup_total_alt, lookup_delete_ne; [reflexivity|].
      intros Heq. apply Hnotin. rewrite Heq.
      apply list_elem_of_fmap. exists e'. split; [reflexivity|].
      eapply list_elem_of_lookup_2, He'.
    + intros k [v Hk]. apply lookup_delete_Some in Hk as [Hne Hk].
      specialize (Hdom k (mk_is_Some _ _ Hk)). rewrite fmap_cons in Hdom.
      apply elem_of_cons in Hdom as [Heq|Hin]; [congruence | exact Hin].
Qed.

Lemma sum_list_Permutation (l1 l2 : list nat) : l1 ≡ₚ l2 → sum_list l1 = sum_list l2.
Proof. induction 1; simpl; lia. Qed.

(** X11. The counts of the rows against the total of the report: the
    counts add up to the total or more, and to the total exactly when no
    two Expressions have the same id (the digest of their source); the
    total is the number of boundary lines of the file. *)
Theorem X11_row_counts_add_up `{Regex} (file : list string) (regex_data : list Expression.t)
    (res : list (string * bool)) (counts : MatchCounter) (rep : report_data) :
  split_text file regex_data = Return (res, counts) →
  report counts regex_data (Some res) = Return rep →
  (boundaries regex_data (lines_of file) ≤ sum_list (row_count <$> table rep))%nat
  ∧ (NoDup (Expression.id <$> regex_data) →
     sum_list (row_count <$> table rep) = boundaries regex_data (lines_of file)).
Proof.
  intros Hrun Hrep.
  assert (Hdom : ∀ k, is_Some (counts !! k) → k ∈ Expression.id <$> regex_data).
  { intros k [v Hk]. rewrite (split_text_counts _ _ _ _ Hrun) in Hk.
    apply (wins_pos_In regex_data k (lines_of file)).
    destruct (wins regex_data k (lines_of file)); [discriminate | lia]. }
  assert (Hsum : sum_list (row_count <$> table rep)
                 = sum_list (count_of counts <$> regex_data)).
  { transitivity (sum_list (snd <$> (row_info <$> table rep))).
    { rewrite <- list_fmap_compose. reflexivity. }
    rewrite (report_table _ _ _ _ Hrep), <- list_fmap_compose.
    apply sum_list_Permutation, fmap_Permutation.
    apply (sorted_reverse_stable_descending (count_of counts)). }
  destruct (split_text_total _ _ _ _ Hrun) as [Htotal _].
  rewrite Hsum, <- Htotal. split.
  - apply sum_counts_ge, Hdom.
  - intros Hnd. apply sum_counts_NoDup; assumption.
Qed.

(** ** When main completes *)

(** X12. [main] after a segmentation that returns: with at least one
    Expression and no boundary line in the file, the report divides by
    zero and [main] raises [ZeroDivisionError]; in every other case
    [main] returns, with the report and the texts of the paragraphs that
    are not excluded. *)
Theorem X12_main_outcome `{Regex} (file : list string) (regex_data : list Expression.t)
    (res : list (string * bool)) (counts : MatchCounter) :
  split_text file regex_data = Return (res, counts) →
  (regex_data ≠ [] → boundaries regex_data (lines_of file) = 0%nat →
   main file regex_data = Raise ZeroDivisionError)
  ∧ (regex_data = [] ∨ (0 < boundaries regex_data (lines_of file))%nat →
     ∃ rep, report counts regex_data (Some res) = Return rep
            ∧ main file regex_data = Return (rep, fst <$> unexcluded res)).
Proof.
  intros Hrun. destruct (split_text_total _ _ _ _ Hrun) as [Htotal _].
  unfold main. rewrite Hrun. simpl. split.
  - intros Hne Hzero. rewrite <- Htotal in Hzero.
    unfold report. rewrite Hzero.
    destruct (sorted_reverse (λ x, counts !!! Expression.id x) regex_data) as [|e es] eqn:Hs.
    + apply sorted_reverse_nil_inv in Hs. contradiction.
    + reflexivity.
  - intros Hok.
    destruct (report_Return counts regex_data (Some res)) as (rep & es & Hrep & _).
    { destruct Hok as [Hnil|Hpos]; [right; exact Hnil | left; lia]. }
    exists rep. rewrite Hrep. split; reflexivity.
Qed.

(** ** Groups of one line *)

Section single_lines.
Context `{Regex}.

Lemma all_boundaries_for_each (regex_data : list Expression.t) (file : list string)
    (st : state) :
  Forall (λ l, is_boundary regex_data l = true) (lines_of file) →
  result st = [] → (List.length (current_group st) ≤ 1)%nat →
  ∃ st', for_each (body regex_data) file st = Return st'
         ∧ result st' = [] ∧ (List.length (current_group st') ≤ 1)%nat.
Proof.
  revert st. induction file as [|raw file IH]; intros st Hall Hres Hlen.
  - exists st. auto.
  - rewrite lines_of_cons in Hall. simpl.
    destruct (String.eqb_spec (strip LF raw) "") as [Hblank|Hblank].
    + rewrite body_blank by exact Hblank. simpl. apply IH; assumption.
    + apply Forall_cons in Hall as [Hb Hall]. unfold is_boundary in Hb.
      destruct (first_match regex_data (strip LF raw)) as [[e|]|x] eqn:Hfirst;
        try discriminate.
      rewrite body_nonblank, scan_first_match, Hfirst by exact Hblank. simpl.
      unfold close_out.
      destruct (Nat.ltb_spec 1 (List.length (current_group st))); [lia|]. simpl.
      apply IH; [exact Hall | exact Hres | simpl; lia].
Qed.
Lemma split_text_boundaries_only (regex_data : list Expression.t) (file : list string) :
  Forall (λ l, is_boundary regex_data l = true) (lines_of file) →
  ∃ counts, split_text file regex_data = Return ([], counts)
            ∧ sum_values counts = List.length (lines_of file).
Proof.
  intros Hall.
  destruct (all_boundaries_for_each regex_data file init Hall)
    as (st & Hloop & Hres & Hlen); [reflexivity | simpl; lia |].
  exists (match_count st).
  assert (Hrun : split_text file regex_data = Return ([], match_count st)).
  { unfold split_text. rewrite Hloop. simpl.
    destruct (Nat.ltb_spec 1 (List.length (current_group st))); [lia|]. simpl.
    rewrite Hres. reflexivity. }
  split; [exact Hrun|].
  destruct (split_text_total _ _ _ _ Hrun) as [-> _]. unfold boundaries.
  f_equal. induction Hall as [|l ls Hl _ IH]; simpl; [reflexivity|].
  rewrite Hl, IH. reflexivity.
Qed.
End single_lines.

(** X13. A file in which every non-blank line is a boundary line gives
    no paragraph: [split_text] returns the empty list with the counter,
    without compiling any known source, so that a known source that does
    not compile goes unnoticed. *)
Theorem X13_boundary_lines_only `{Regex} (file : list string)
    (regex_data : list Expression.t) :
  Forall (λ l, is_boundary regex_data l = true) (lines_of file) →
  ∃ counts, split_text file regex_data = Return ([], counts)
            ∧ sum_values counts = List.length (lines_of file).
Proof. apply split_text_boundaries_only. Qed.

(** ** The end of main *)

Lemma sum_unexcluded (multi_line : list (string * bool)) :
  sum_list ((λ i : string * bool, if i.2 then 0 else 1) <$> multi_line)
    = List.length (unexcluded multi_line).
Proof.
  induction multi_line as [|[text excluded] res IH]; [reflexivity|].
  rewrite fmap_cons. change (sum_list (?x :: ?s)) with (x + sum_list s)%nat.
  rewrite IH. unfold unexcluded. simpl. destruct excluded; reflexivity.
Qed.

(** X14. What [main] does after the report: it says that all is clear
    exactly when no paragraph is left unexcluded (none at all included);
    else, unless the flag is given or the user declines, it pages the
    unexcluded paragraphs, in order, each followed by the separator; the
    excluded ones are never shown. *)
Theorem X14_review (no_multi confirm : bool) (multi_line : list (string * bool)) :
  (review_of no_multi confirm multi_line = AllClear
   ↔ Forall (λ i, i.2 = true) multi_line)
  ∧ (∀ pages, review_of no_multi confirm multi_line = Pager pages
     ↔ no_multi = false ∧ confirm = true ∧ pages ≠ []
       ∧ pages = (λ i : string * bool, (i.1 ++ sep)%string) <$> unexcluded multi_line).
Proof.
  unfold review_of. rewrite sum_unexcluded. fold (unexcluded multi_line).
  assert (Hall : unexcluded multi_line = [] ↔ Forall (λ i, i.2 = true) multi_line).
  { unfold unexcluded. induction multi_line as [|[text excluded] res IH]; simpl.
    - split; [constructor | reflexivity].
    - destruct excluded; simpl.
      + rewrite IH. split; [intros Hres; constructor; [reflexivity | exact Hres]|].
        intros Hres. apply Forall_cons in Hres as [_ Hres]. exact Hres.
      + split; [discriminate|]. intros Hres.
        apply Forall_cons in Hres as [Hx _]. discriminate. }
  destruct (unexcluded multi_line) as [|par pars] eqn:Hun; simpl.
  - split; [split; [intros _; apply Hall; reflexivity | reflexivity]|].
    intros pages. split; [discriminate|]. intros (_ & _ & Hne & ->). contradiction.
  - split.
    + split; [destruct (negb no_multi && confirm); discriminate|].
      intros Hres. apply Hall in Hres. discriminate.
    + intros pages. destruct no_multi, confirm; simpl; split;
        try discriminate; try (intros (? & ? & _); discriminate).
      * intros [= <-]. repeat split; discriminate.
      * intros (_ & _ & _ & ->). reflexivity.
Qed.

(** X15. On a file with a non-blank line, all of whose non-blank lines
    are boundary lines, [main] completes and says that all is clear,
    whatever the flag and the answer of the user. *)
Theorem X15_single_lines_all_clear `{Regex} (file : list string)
    (regex_data : list Expression.t) (no_multi confirm : bool) :
  lines_of file ≠ [] →
  Forall (λ l, is_boundary regex_data l = true) (lines_of file) →
  ∃ rep, main_review file regex_data no_multi confirm = Return (rep, AllClear)
         ∧ summary rep = None.
Proof.
  intros Hne Hall.
  destruct (split_text_boundaries_only regex_data file Hall) as (counts & Hrun & Hsum).
  destruct (report_Return counts regex_data (Some [])) as (rep & es & Hrep & _).
  { left. rewrite Hsum. destruct (lines_of file); [contradiction | simpl; lia]. }
  exists rep. unfold main_review. rewrite Hrun. simpl. rewrite Hrep. simpl.
  split; [reflexivity|].
  unfold report in Hrep. apply bind_Return_inv in Hrep as (acc & _ & [= <-]).
  reflexivity.
Qed.

(** * The further properties on concrete inputs *)

Example scenario_run :
  @split_text RegexLite.regex (as_file scenario_lines) [e_error; e_warn]
  = Return (scenario_result, scenario_counts).
Proof. compute_done. Qed.

Example scenario_report_run :
  report scenario_counts [e_error; e_warn] (Some scenario_result) = Return scenario_report.
Proof. vm_compute. reflexivity. Qed.

Lemma X2_witness :
  sum_values scenario_counts
  = @boundaries RegexLite.regex [e_error; e_warn] (lines_of (as_file scenario_lines)).
Proof.
  apply (@X2_total_counts_boundary_lines RegexLite.regex (as_file scenario_lines)
           [e_error; e_warn] scenario_result scenario_counts).
  compute_done.
Defined.

Lemma X3_witness :
  match summary scenario_report with
  | None => scenario_result = []
  | Some (n, total, k) =>
      n = List.length scenario_result ∧ total = sum_values scenario_counts
      ∧ (k ≤ n)%nat ∧ (0 < n)%nat ∧ (n ≤ total)%nat
  end.
Proof.
  apply (@X3_summary_bounds RegexLite.regex (as_file scenario_lines) [e_error; e_warn]
           scenario_result scenario_counts scenario_report).
  - compute_done.
  - vm_compute. reflexivity.
Defined.

Lemma X4_witness :
  ∃ b, @Expression.should_exclude RegexLite.regex e_warn
         (join NL ["WARN: deprecated"; "  detail3"]) = Return b
       ∧ (b = true ↔
          Exists (λ k, ∃ p, @re_compile RegexLite.regex k = Some p
                            ∧ @re_match RegexLite.regex p
                                (join NL ["WARN: deprecated"; "  detail3"]) = true)
            (Expression.known e_warn))
       ∧ (Expression.known e_warn = [] → b = false).
Proof.
  apply (@X4_should_exclude_some_known_matches RegexLite.regex e_warn).
  compute_done.
Defined.

Lemma X5_witness :
  @Expression.should_exclude RegexLite.regex e_warn_open
    (join NL ["WARN: deprecated"; "  detail3"]) = Raise (re_error "(").
Proof.
  apply (@X5_should_exclude_compiles_all_first RegexLite.regex e_warn_open
           ["^WARN: deprecated"] "(" []).
  - reflexivity.
  - compute_done.
  - compute_done.
Defined.

Lemma X6_witness :
  @split_text RegexLite.regex (as_file scenario_lines) [e_error; e_warn; e_error_again]
  = @split_text RegexLite.regex (as_file scenario_lines) [e_error; e_warn].
Proof.
  apply (@X6_repeated_source_never_wins RegexLite.regex (as_file scenario_lines)
           [] e_error [e_warn] e_error_again []).
  reflexivity.
Defined.

Lemma X7_witness :
  @split_text RegexLite.regex (as_file scenario_lines) [e_error; e_warn]
  = @segmentation RegexLite.regex
      (zip (lines_of (as_file scenario_lines))
         [Some e_error; None; None; Some e_warn; None; Some e_error]).
Proof.
  apply (@X7_split_text_is_segmentation RegexLite.regex (as_file scenario_lines)
           [e_error; e_warn]).
  compute_done.
Defined.

Lemma X8_witness :
  Forall (@owned_paragraph RegexLite.regex [e_error; e_warn]) scenario_result.
Proof.
  apply (@X8_paragraph_has_owner RegexLite.regex (as_file scenario_lines)
           [e_error; e_warn] scenario_result scenario_counts).
  compute_done.
Defined.

Lemma X9_witness :
  (@split_text RegexLite.regex (as_file ["WARN: deprecated"; "  detail3"])
     [e_error; e_warn_open] = Raise (re_error "(")
   ∧ @split_text RegexLite.regex (as_file ["WARN: deprecated"; "  detail3"; "ERROR again"])
       [e_error; e_warn_open] = Raise (re_error "("))
  ∧ (@split_text RegexLite.regex (as_file ["WARN: deprecated"]) [e_error; e_warn_open]
     = Return ([], {[ Expression.id e_warn_open := 1%nat ]})
     ∧ @for_each _ _ (@body RegexLite.regex [e_error; e_warn_open])
         (as_file ["WARN: deprecated"; "ERROR again"]) init
       = Return (mkstate [] ["ERROR again"] (Some e_error)
                   (<[ Expression.id e_error := 1%nat ]>
                      {[ Expression.id e_warn_open := 1%nat ]}))).
Proof.
  split.
  - destruct (@X9_known_error_at_close_out RegexLite.regex
                (as_file ["WARN: deprecated"; "  detail3"]) ("ERROR again" ++ NL)%string []
                [e_error; e_warn_open]
                (mkstate [] ["WARN: deprecated"; "  detail3"] (Some e_warn_open)
                   {[ Expression.id e_warn_open := 1%nat ]})
                e_warn_open ["^WARN: deprecated"] "(" []) as [Hmany _].
    + compute_done.
    + reflexivity.
    + reflexivity.
    + compute_done.
    + compute_done.
    + destruct Hmany as [Hend Hnext]; [simpl; lia|].
      split; [exact Hend|]. apply Hnext; compute_done.
  - destruct (@X9_known_error_at_close_out RegexLite.regex
                (as_file ["WARN: deprecated"]) ("ERROR again" ++ NL)%string []
                [e_error; e_warn_open]
                (mkstate [] ["WARN: deprecated"] (Some e_warn_open)
                   {[ Expression.id e_warn_open := 1%nat ]})
                e_warn_open ["^WARN: deprecated"] "(" []) as [_ Hone].
    + compute_done.
    + reflexivity.
    + reflexivity.
    + compute_done.
    + compute_done.
    + destruct Hone as [Hend Hnext]; [simpl; lia|].
      split; [exact Hend|].
      apply (Hnext e_error); compute_done.
Defined.

Lemma X10_witness :
  ∃ es,
    row_info <$> table scenario_report
    = @wins_info RegexLite.regex [e_warn; e_error] (lines_of (as_file scenario_lines)) <$> es
    ∧ es = [e_error; e_warn].
Proof.
  destruct (@X10_table_shows_wins RegexLite.regex (as_file scenario_lines) [e_warn; e_error]
              scenario_result scenario_counts scenario_report)
    as (es & Hrows & Hsd).
  - compute_done.
  - vm_compute. reflexivity.
  - exists es. split; [exact Hrows|].
    apply (stable_descending_unique
             (λ e, @wins RegexLite.regex [e_warn; e_error] (Expression.id e)
                     (lines_of (as_file scenario_lines)))
             [e_warn; e_error]); [exact Hsd|].
    assert (Hsorted :
      sorted_reverse
        (λ e, @wins RegexLite.regex [e_warn; e_error] (Expression.id e)
                (lines_of (as_file scenario_lines))) [e_warn; e_error]
      = [e_error; e_warn]) by (vm_compute; reflexivity).
    rewrite <- Hsorted. apply sorted_reverse_stable_descending.
Defined.

(** The rows of the scenario with the Expressions configured in the other
    order: the one that wins more lines comes first. *)
Example scenario_rows_reordered :
  (r ← @split_text RegexLite.regex (as_file scenario_lines) [e_warn; e_error];
   rep ← report r.2 [e_warn; e_error] (Some r.1);
   Return (row_info <$> table rep))
  = Return [ ("^ERROR", "an error", 2%nat); ("^WARN", "a warning", 1%nat) ].
Proof. vm_compute. reflexivity. Qed.

Lemma X11_witness :
  (@boundaries RegexLite.regex [e_error; e_warn] (lines_of (as_file scenario_lines))
   ≤ sum_list (row_count <$> table scenario_report))%nat
  ∧ sum_list (row_count <$> table scenario_report)
    = @boundaries RegexLite.regex [e_error; e_warn] (lines_of (as_file scenario_lines)).
Proof.
  pose proof (@X11_row_counts_add_up RegexLite.regex (as_file scenario_lines)
                [e_error; e_warn] scenario_result scenario_counts scenario_report) as Hsum.
  destruct Hsum as [Hle Heq].
  - compute_done.
  - vm_compute. reflexivity.
  - split; [exact Hle|]. apply Heq. compute_done.
Defined.

(** Two Expressions with the same source: the second never wins, and its
    row shows the count of the first; the counts add up to more than the
    total. *)
Example report_repeated_source :
  (r ← @split_text RegexLite.regex (as_file scenario_lines) [e_error; e_warn; e_error_again];
   rep ← report r.2 [e_error; e_warn; e_error_again] (Some r.1);
   Return (row_info <$> table rep, sum_values r.2))
  = Return ([ ("^ERROR", "an error", 2%nat); ("^ERROR", "errors again", 2%nat);
              ("^WARN", "a warning", 1%nat) ], 3%nat).
Proof. vm_compute. reflexivity. Qed.

Lemma X12_witness :
  ∃ rep, report scenario_counts [e_error; e_warn] (Some scenario_result) = Return rep
         ∧ @main RegexLite.regex (as_file scenario_lines) [e_error; e_warn]
           = Return (rep, fst <$> unexcluded scenario_result).
Proof.
  refine (proj2 (@X12_main_outcome RegexLite.regex (as_file scenario_lines)
                   [e_error; e_warn] scenario_result scenario_counts _) _).
  - compute_done.
  - right. compute_done.
Defined.

(** A file without boundary line: [split_text] returns, and [main]
    fails in the report. *)
Example main_no_boundary :
  @split_text RegexLite.regex (as_file ["noise 1"; "noise 2"]) [e_error; e_warn]
  = Return ([], ∅)
  ∧ @main RegexLite.regex (as_file ["noise 1"; "noise 2"]) [e_error; e_warn]
    = Raise ZeroDivisionError.
Proof. split; [compute_done | vm_compute; reflexivity]. Qed.

Lemma X13_witness :
  ∃ counts,
    @split_text RegexLite.regex (as_file ["ERROR a"; ""; "WARN: b"; "ERROR c"])
      [e_error; e_warn_open] = Return ([], counts)
    ∧ sum_values counts
      = List.length (lines_of (as_file ["ERROR a"; ""; "WARN: b"; "ERROR c"])).
Proof.
  apply (@X13_boundary_lines_only RegexLite.regex).
  compute_done.
Defined.

(** The pages of the scenario, and the flag. *)
Example scenario_review :
  review_of false true scenario_result
  = Pager [ (join NL ["ERROR start"; "  detail1"; "  detail2"] ++ sep)%string ]
  ∧ review_of true true scenario_result = Nothing
  ∧ review_of false true [ (join NL ["WARN: deprecated"; "  detail3"], true) ] = AllClear
  ∧ review_of false true [] = AllClear.
Proof. repeat split; compute_done. Qed.

Lemma X15_witness :
  ∃ rep, @main_review RegexLite.regex (as_file ["ERROR a"; ""; "WARN: b"; "ERROR c"])
           [e_error; e_warn_open] false true = Return (rep, AllClear)
         ∧ summary rep = None.
Proof.
  apply (@X15_single_lines_all_clear RegexLite.regex).
  - compute_done.
  - compute_done.
Defined.

(** [main] on the scenario, the user accepting the pager. *)
Example scenario_main_review :
  @main_review RegexLite.regex (as_file scenario_lines) [e_error; e_warn] false true
  = Return (scenario_report,
            Pager [ (join NL ["ERROR start"; "  detail1"; "  detail2"] ++ sep)%string ]).
Proof. vm_compute. reflexivity. Qed.
